(** * Top-N hotels by city: a shallow embedding of [Visualisations/app.py]

    The Streamlit script loads a CSV of hotels with pandas, lets the user pick
    a city, a minimum rating and a hotel count, and draws the selected hotels
    on a Folium map.  This file embeds the script function by function:

    - Python strings are lists of Unicode code points ([list N]), so that
      [len] and slicing count what Python counts;
    - a float64 is NaN, an infinity or the rational it denotes; comparisons of
      floats are exact, so nothing is lost for [>=] and [==];
    - a DataFrame is a list of labelled rows, a row ([Series]) a finite map
      from column labels to cells;
    - exceptions are an error monad, the Streamlit page a writer monad that can
      halt ([st.stop()]).

    Library code that is not part of the repository is either written out
    from its documented behaviour ([html.escape], [DataFrame.dropna],
    [DataFrame.head], the [.1f] format) or is a field of the class [Runtime]
    ([pd.read_csv], the numeric parser of [pd.to_numeric], [str] of a float,
    [float] of a string, the argsort behind [DataFrame.sort_values]); the
    class [RuntimeSpec] states what pandas documents of the argsort. *)

From Stdlib Require Import QArith Qround Qabs String Ascii Decimal.
From stdpp Require Import gmap strings list sorting.

Local Open Scope Z_scope.
Local Open Scope nat_scope.

(** ** Python strings *)

Abbreviation char := N (only parsing).
Abbreviation str := (list N) (only parsing).

(** An ASCII literal of the source as a list of code points. *)
Definition lit (s : string) : str :=
  N_of_ascii <$> list_ascii_of_string s.

Definition c_amp : char := 38%N.   (* & *)
Definition c_lt : char := 60%N.    (* < *)
Definition c_gt : char := 62%N.    (* > *)
Definition c_dquote : char := 34%N.
Definition c_squote : char := 39%N.
Definition c_newline : char := 10%N.

(** [s.replace(c, r)] for a pattern of one character. *)
Definition replace_char (c : char) (r : str) (s : str) : str :=
  s ≫= (λ x, if decide (x = c) then r else [x]).

(** [html.escape(s)] with its default [quote=True]: five replacements in the
    order of the standard library, the ampersand first. *)
Definition html_escape (s : str) : str :=
  let s := replace_char c_amp (lit "&amp;") s in
  let s := replace_char c_lt (lit "&lt;") s in
  let s := replace_char c_gt (lit "&gt;") s in
  let s := replace_char c_dquote (lit "&quot;") s in
  replace_char c_squote (lit "&#x27;") s.

(** The characters that [html.escape] rewrites. *)
Definition markup_significant (c : char) : bool :=
  bool_decide (c ∈ [c_amp; c_lt; c_gt; c_dquote; c_squote]).

(** [needle in hay] *)
Definition contains (needle hay : str) : Prop :=
  ∃ pre post, hay = pre ++ needle ++ post.

Fixpoint is_prefix (p s : str) : bool :=
  match p, s with
  | [], _ => true
  | _ :: _, [] => false
  | a :: p', b :: s' => bool_decide (a = b) && is_prefix p' s'
  end.

Fixpoint containsb (needle hay : str) : bool :=
  is_prefix needle hay ||
  match hay with
  | [] => false
  | _ :: hay' => containsb needle hay'
  end.

(** ** Floats *)

(** A float64 by the value it denotes.  The two zeros are identified. *)
Inductive float64 : Type :=
  | NaN
  | NegInf
  | Fin (q : Q)
  | PosInf.

(** [a <= b]; any comparison with NaN is false. *)
Definition float_leb (a b : float64) : bool :=
  match a, b with
  | NaN, _ | _, NaN => false
  | NegInf, _ => true
  | _, PosInf => true
  | Fin x, Fin y => Qle_bool x y
  | _, _ => false
  end.

(** [a >= b] *)
Definition float_geb (a b : float64) : bool := float_leb b a.

(** [a == b] *)
Definition float_eqb (a b : float64) : bool := float_leb a b && float_leb b a.

Definition is_nan (a : float64) : bool :=
  match a with NaN => true | _ => false end.

Definition f9_0 : float64 := Fin 9.
Definition f8_0 : float64 := Fin 8.

(** *** Decimal output *)

Fixpoint uint_digits (u : Decimal.uint) : str :=
  match u with
  | Nil => []
  | D0 u => 48%N :: uint_digits u
  | D1 u => 49%N :: uint_digits u
  | D2 u => 50%N :: uint_digits u
  | D3 u => 51%N :: uint_digits u
  | D4 u => 52%N :: uint_digits u
  | D5 u => 53%N :: uint_digits u
  | D6 u => 54%N :: uint_digits u
  | D7 u => 55%N :: uint_digits u
  | D8 u => 56%N :: uint_digits u
  | D9 u => 57%N :: uint_digits u
  end.

(** The decimal digits of a natural number, ["0"] for zero. *)
Definition digits (n : N) : str := uint_digits (N.to_uint n).

(** The nearest integer, ties to even. *)
Definition round_half_even (q : Q) : Z :=
  let n := Qnum q in
  let d := Z.pos (Qden q) in
  let fl := (n / d)%Z in
  match (2 * (n mod d) ?= d)%Z with
  | Lt => fl
  | Gt => (fl + 1)%Z
  | Eq => if Z.even fl then fl else (fl + 1)%Z
  end.

(** [f"{x:.1f}"] for a float: the exact value rounded to one decimal. *)
Definition format_1f (x : float64) : str :=
  match x with
  | NaN => lit "nan"
  | PosInf => lit "inf"
  | NegInf => lit "-inf"
  | Fin q =>
      let t := Z.to_N (round_half_even (Qabs q * 10)) in
      (if Qle_bool 0 q then [] else lit "-") ++
      digits (t / 10) ++ lit "." ++ digits (t mod 10)
  end.

(** ** Python values and exceptions *)

(** What a cell of the table, or a variable of the script, can hold. *)
Inductive value : Type :=
  | VNone
  | VFloat (f : float64)
  | VStr (s : str).

Inductive exn : Type :=
  | KeyError (key : string)
  | TypeError
  | ValueError
  | AttributeError
  | OSError
  | ParserError.

Inductive result (A : Type) : Type :=
  | Ok (a : A)
  | Raise (e : exn).
Arguments Ok {A} a.
Arguments Raise {A} e.

Global Instance result_ret : MRet result := λ A a, Ok a.
Global Instance result_bind : MBind result := λ A B f m,
  match m with
  | Ok a => f a
  | Raise e => Raise e
  end.

(** [pd.isna(v)] / [pd.notna(v)] on a scalar. *)
Definition isna (v : value) : bool :=
  match v with
  | VNone => true
  | VFloat f => is_nan f
  | VStr _ => false
  end.

Definition notna (v : value) : bool := negb (isna v).

(** [cell == other] as pandas compares a column with a scalar: values of
    different types are unequal, NaN equals nothing. *)
Definition py_eq (a b : value) : bool :=
  match a, b with
  | VStr s, VStr t => bool_decide (s = t)
  | VFloat x, VFloat y => float_eqb x y
  | _, _ => false
  end.

(** [r >= bound] for a scalar [r]: only numbers compare with a float. *)
Definition py_ge (r : value) (bound : float64) : result bool :=
  match r with
  | VFloat f => Ok (float_geb f bound)
  | _ => Raise TypeError
  end.

(** The comparison ran and gave [True]. *)
Definition holds (b : result bool) : Prop := b = Ok true.

Global Instance holds_dec b : Decision (holds b).
Proof.
  destruct b as [[|]|e]; [left | right | right]; unfold holds; congruence.
Defined.

(** [f"{v:.1f}"] *)
Definition py_format_1f (v : value) : result str :=
  match v with
  | VFloat f => Ok (format_1f f)
  | VStr _ => Raise ValueError
  | VNone => Raise TypeError
  end.

(** [html.escape(v)] applied to a value that need not be a string. *)
Definition html_escape_value (v : value) : result str :=
  match v with
  | VStr s => Ok (html_escape s)
  | _ => Raise AttributeError
  end.

(** ** Rating classifier *)

(** [color_by_rating(r)] *)
Definition color_by_rating (r : value) : result str :=
  if isna r then Ok (lit "gray")
  else
    b9 ← py_ge r f9_0;
    if b9 : bool then Ok (lit "green")
    else
      b8 ← py_ge r f8_0;
      if b8 : bool then Ok (lit "orange")
      else Ok (lit "red").

(** The four marker categories of the specification. *)
Inductive MarkerCategory : Type := green | orange | red | gray.

Definition category_color (c : MarkerCategory) : str :=
  match c with
  | green => lit "green"
  | orange => lit "orange"
  | red => lit "red"
  | gray => lit "gray"
  end.

(** ** DataFrames *)

(** A row is a Series: a finite map from column labels to cells.  A row of a
    DataFrame carries its index label, which [read_csv] numbers from zero and
    which filtering and sorting keep. *)
Record DataFrame : Type := {
  columns : list string;
  rows : list (nat * gmap string value);
}.

(** The cell of a row in a column of the frame.  A frame read from a file
    has a cell in every column of every row, NaN where the file is blank. *)
Definition cell (c : string) (r : nat * gmap string value) : value :=
  default (VFloat NaN) (r.2 !! c).

(** [df[c]] *)
Definition getitem (df : DataFrame) (c : string) : result (list value) :=
  if decide (c ∈ columns df) then Ok (cell c <$> rows df)
  else Raise (KeyError c).

(** [df[mask]] where the mask is a test of each row. *)
Definition boolean_index (df : DataFrame)
    (P : nat * gmap string value → Prop) `{∀ r, Decision (P r)} : DataFrame :=
  {| columns := columns df; rows := filter P (rows df) |}.

(** [df.dropna(subset=labels)] *)
Definition dropna (subset : list string) (df : DataFrame) : result DataFrame :=
  match filter (λ c, c ∉ columns df) subset with
  | c :: _ => Raise (KeyError c)
  | [] =>
      Ok (boolean_index df
            (λ r, Forall (λ c, isna (cell c r) = false) subset))
  end.

(** [df[c] = f(df[c])], elementwise, for a column the frame has. *)
Definition map_column (c : string) (f : value → value) (df : DataFrame)
    : DataFrame :=
  {| columns := columns df;
     rows := (λ r, (r.1, <[c := f (cell c r)]> r.2)) <$> rows df |}.

(** [df.head(n)] for [n >= 0]; the count slider never goes below 5. *)
Definition head (n : nat) (df : DataFrame) : DataFrame :=
  {| columns := columns df; rows := take n (rows df) |}.

(** [df.empty] for a frame with at least one column. *)
Definition empty (df : DataFrame) : bool :=
  bool_decide (rows df = []).

(** [df.take(indexer)] *)
Definition take_rows (df : DataFrame) (indexer : list nat) : DataFrame :=
  {| columns := columns df; rows := omap (rows df !!.) indexer |}.

(** The sort key of a numeric column. *)
Definition as_float (v : value) : result float64 :=
  match v with
  | VFloat f => Ok f
  | _ => Raise TypeError
  end.

(** The order of [sort_values(ascending=False)] with its default
    [na_position="last"]: [a] may come before [b]. *)
Definition sorts_before (a b : float64) : Prop :=
  is_nan b || float_geb a b.

Global Instance sorts_before_dec a b : Decision (sorts_before a b).
Proof. unfold sorts_before. apply _. Defined.

(** ** The runtime outside the repository *)

(** - [read_csv path]: [pd.read_csv(path, encoding="utf-8-sig")], the parsed
      file or the exception raised;
    - [parse_numeric s]: the number [pd.to_numeric] reads in the string [s],
      if any;
    - [float_repr q]: [str] of the float of value [q];
    - [float_of_str s]: [float(s)], the number Python reads in [s], if any;
    - [argsort_desc keys]: the indexer pandas computes for
      [sort_values(ascending=False)] with the default [kind="quicksort"]. *)
Class Runtime : Type := {
  read_csv : str → result DataFrame;
  parse_numeric : str → option float64;
  float_repr : Q → str;
  float_of_str : str → option float64;
  argsort_desc : list float64 → list nat;
}.

(** What pandas documents of the sort: the indexer is a permutation of the
    positions that puts the keys in descending order, NaN last.  The default
    sort kind promises no order among equal keys. *)
Class RuntimeSpec (R : Runtime) : Prop := {
  argsort_desc_perm keys :
    argsort_desc keys ≡ₚ seq 0 (length keys);
  argsort_desc_sorted keys :
    StronglySorted sorts_before (omap (keys !!.) (argsort_desc keys));
}.

(** A sort kind that keeps equal keys in their original order
    ([kind="stable"]). *)
Definition stable_argsort (R : Runtime) : Prop :=
  ∀ keys p q i j a b,
    p < q →
    argsort_desc keys !! p = Some i → argsort_desc keys !! q = Some j →
    keys !! i = Some a → keys !! j = Some b →
    sorts_before b a →
    i < j.

Section Program.
Context {R : Runtime}.

(** [str(v)]; [float_repr] is the interpreter's shortest-repr algorithm. *)
Definition py_str (v : value) : str :=
  match v with
  | VNone => lit "None"
  | VFloat NaN => lit "nan"
  | VFloat PosInf => lit "inf"
  | VFloat NegInf => lit "-inf"
  | VFloat (Fin q) => float_repr q
  | VStr s => s
  end.

(** ** Dataset loader *)

(** [pd.to_numeric(v, errors="coerce")] on one cell. *)
Definition to_numeric (v : value) : float64 :=
  match v with
  | VFloat f => f
  | VStr s => default NaN (parse_numeric s)
  | VNone => NaN
  end.

(** [load_data(path)].  The [st.cache_data] decorator memoises the call; it
    does not change what the call returns. *)
Definition load_data (path : str) : result DataFrame :=
  df ← read_csv path;
  df ← dropna ["hotel_rating"; "hotel_latitude"; "hotel_longitude"] df;
  let df := map_column "hotel_rating" (λ v, VFloat (to_numeric v)) df in
  df ← dropna ["hotel_rating"] df;
  Ok df.

(** ** Filter and sort *)

(** [df.sort_values(by=c, ascending=False)] on a numeric column. *)
Definition sort_values_desc (c : string) (df : DataFrame) : result DataFrame :=
  if decide (c ∈ columns df) then
    keys ← mapM (λ r, as_float (cell c r)) (rows df);
    Ok (take_rows df (argsort_desc keys))
  else Raise (KeyError c).

(** [df[df[c] == v]] *)
Definition where_eq (c : string) (v : value) (df : DataFrame)
    : result DataFrame :=
  if decide (c ∈ columns df) then
    Ok (boolean_index df (λ r, py_eq (cell c r) v = true))
  else Raise (KeyError c).

(** [df[df[c] >= bound]] on a numeric column. *)
Definition where_ge (c : string) (bound : float64) (df : DataFrame)
    : result DataFrame :=
  if decide (c ∈ columns df) then
    _ ← mapM (λ r, as_float (cell c r)) (rows df);
    Ok (boolean_index df (λ r, holds (py_ge (cell c r) bound)))
  else Raise (KeyError c).

(** The two statements that compute [city_df]. *)
Definition select (df : DataFrame) (selected_city : value)
    (min_rating : float64) (top_n : nat) : result DataFrame :=
  city_df ← where_eq "city_name" selected_city df;
  city_df ← sort_values_desc "hotel_rating" city_df;
  city_df ← where_ge "hotel_rating" min_rating city_df;
  Ok (head top_n city_df).

(** ** Map builder *)

(** [row.get(key, default)] *)
Definition row_get (row : gmap string value) (key : string) (d : value)
    : value :=
  default d (row !! key).

(** [row[key]] *)
Definition row_getitem (row : gmap string value) (key : string)
    : result value :=
  match row !! key with
  | Some v => Ok v
  | None => Raise (KeyError key)
  end.

(** [html.escape(str(desc))[:300] + ("..." if len(str(desc)) > 300 else "")] *)
Definition safe_desc (desc : value) : str :=
  take 300 (html_escape (py_str desc)) ++
  (if bool_decide (300 < length (py_str desc)) then lit "..." else []).

(** [f"{rating:.1f}" if pd.notna(rating) else "N/A"] *)
Definition rating_txt (rating : value) : result str :=
  if notna rating then py_format_1f rating else Ok (lit "N/A").

(** The f-string of the popup, with its line breaks and indentation. *)
Definition popup_html (safe_name rating_txt safe_desc safe_url : str) : str :=
  [c_newline] ++
  lit "    <div style=" ++ [c_dquote] ++
    lit "font-size:13px; line-height:1.3;" ++ [c_dquote] ++ lit ">" ++
    [c_newline] ++
  lit "      <strong>" ++ safe_name ++ lit "</strong><br>" ++ [c_newline] ++
  lit "      <em>Rating:</em> " ++ rating_txt ++ lit "<br>" ++ [c_newline] ++
  lit "      <em>Description:</em> " ++ safe_desc ++ lit "<br>" ++
    [c_newline] ++
  lit "      <a href=" ++ [c_dquote] ++ safe_url ++ [c_dquote] ++
    lit " target=" ++ [c_dquote] ++ lit "_blank" ++ [c_dquote] ++
    lit " rel=" ++ [c_dquote] ++ lit "noopener noreferrer" ++ [c_dquote] ++
    lit ">" ++ [0x1F517%N] ++ lit " View on Booking</a>" ++ [c_newline] ++
  lit "    </div>" ++ [c_newline] ++
  lit "    ".

(** A [folium.Marker] with its [folium.Popup] and [folium.Icon]. *)
Record Marker : Type := {
  location : float64 * float64;
  popup : str;
  popup_max_width : nat;
  icon_color : str;
  icon : str;
}.

(** The map: tiles, the box given to [fit_bounds], whether the markers sit in
    a [MarkerCluster], and the markers in the order they were added. *)
Record FoliumMap : Type := {
  tiles : str;
  bounds : list (value * value);
  clustered : bool;
  markers : list Marker;
}.

(** What [folium.Marker] accepts as a coordinate: a value that [float]
    converts, other than NaN. *)
Definition validate_coord (v : value) : result float64 :=
  let checked (f : float64) :=
    if is_nan f then Raise ValueError else Ok f in
  match v with
  | VFloat f => checked f
  | VStr s =>
      match float_of_str s with
      | Some f => checked f
      | None => Raise ValueError
      end
  | VNone => Raise ValueError
  end.

(** Folium's [validate_location] on [[lat, lon]]. *)
Definition validate_location (lat lon : value) : result (float64 * float64) :=
  a ← validate_coord lat;
  b ← validate_coord lon;
  Ok (a, b).

(** The body of the loop over [city_df.iterrows()]. *)
Definition render_row (row : gmap string value) : result Marker :=
  let name := row_get row "hotel_name" (VStr (lit "Unknown Hotel")) in
  let rating := row_get row "hotel_rating" VNone in
  let url := row_get row "hotel_url" (VStr (lit "#")) in
  let desc := row_get row "hotel_description" (VStr []) in
  let safe_name := html_escape (py_str name) in
  let safe_desc := safe_desc desc in
  rating_txt ← rating_txt rating;
  let popup_html :=
    popup_html safe_name rating_txt safe_desc (html_escape (py_str url)) in
  lat ← row_getitem row "hotel_latitude";
  lon ← row_getitem row "hotel_longitude";
  r ← row_getitem row "hotel_rating";
  c ← color_by_rating r;
  location ← validate_location lat lon;
  Ok {| location := location; popup := popup_html; popup_max_width := 320;
        icon_color := c; icon := lit "info-sign" |}.

(** [city_df[["hotel_latitude", "hotel_longitude"]].values.tolist()] *)
Definition lat_lon_list (df : DataFrame) : result (list (value * value)) :=
  match filter (λ c, c ∉ columns df) ["hotel_latitude"; "hotel_longitude"] with
  | c :: _ => Raise (KeyError c)
  | [] =>
      Ok ((λ r, (cell "hotel_latitude" r, cell "hotel_longitude" r))
            <$> rows df)
  end.

(** Map construction: [fit_bounds], the clustering choice, one marker per
    row. *)
Definition build_map (city_df : DataFrame) : result FoliumMap :=
  let nb_hotels := length (rows city_df) in
  bounds ← lat_lon_list city_df;
  ms ← mapM (λ r, render_row r.2) (rows city_df);
  Ok {| tiles := lit "OpenStreetMap"; bounds := bounds;
        clustered := bool_decide (10 < nb_hotels); markers := ms |}.

(** ** The page *)

(** What the script puts on the page, in order. *)
Inductive ui_event : Type :=
  | Markdown (body : str) (unsafe_allow_html : bool)
  | SidebarMarkdown (body : str)
  | Selectbox (label : str) (options : list value) (index : nat)
  | Slider (label : str)
  | Warning (body : str)
  | Folium (m : FoliumMap) (width height : nat).

(** What the user has set the three widgets to: the position chosen in the
    city list, the minimum rating and the hotel count. *)
Record Interaction : Type := {
  chosen_city : nat;
  min_rating : float64;
  top_n : nat;
}.

(** A run of the script writes events to the page and either goes on, is
    halted by [st.stop()] or dies of an uncaught exception. *)
Inductive status (A : Type) : Type :=
  | Continue (a : A)
  | Stopped
  | Uncaught (e : exn).
Arguments Continue {A} a.
Arguments Stopped {A}.
Arguments Uncaught {A} e.

Definition script (A : Type) : Type :=
  list ui_event → list ui_event * status A.

Global Instance script_ret : MRet script := λ A a page, (page, Continue a).
Global Instance script_bind : MBind script := λ A B f m page,
  match m page with
  | (page', Continue a) => f a page'
  | (page', Stopped) => (page', Stopped)
  | (page', Uncaught e) => (page', Uncaught e)
  end.

Definition emit (e : ui_event) : script () :=
  λ page, (page ++ [e], Continue ()).

(** [st.stop()] *)
Definition st_stop {A} : script A := λ page, (page, Stopped).

Definition lift {A} (r : result A) : script A :=
  λ page,
    match r with
    | Ok a => (page, Continue a)
    | Raise e => (page, Uncaught e)
    end.

(** *** The city list *)

(** [Series.unique()]: first occurrences, in order. *)
Fixpoint unique_from (seen l : list value) : list value :=
  match l with
  | [] => []
  | x :: l' =>
      if existsb (py_eq x) seen then unique_from seen l'
      else x :: unique_from (x :: seen) l'
  end.

Definition unique (l : list value) : list value := unique_from [] l.

(** [s <= t] on strings: lexicographic on code points. *)
Fixpoint str_leb (s t : str) : bool :=
  match s, t with
  | [], _ => true
  | _ :: _, [] => false
  | a :: s', b :: t' =>
      if (a <? b)%N then true
      else if (b <? a)%N then false
      else str_leb s' t'
  end.

Definition get_str (v : value) : option str :=
  match v with VStr s => Some s | _ => None end.

Definition get_float (v : value) : option float64 :=
  match v with VFloat f => Some f | _ => None end.

(** [sorted(l)]: strings sort among themselves and numbers among themselves;
    a mixed list raises. *)
Definition py_sorted (l : list value) : result (list value) :=
  match mapM get_str l, mapM get_float l with
  | Some ss, _ => Ok (VStr <$> merge_sort (λ s t, str_leb s t) ss)
  | None, Some fs => Ok (VFloat <$> merge_sort (λ a b, float_leb a b) fs)
  | None, None => Raise TypeError
  end.

(** [sorted(df["city_name"].dropna().unique())] *)
Definition cities_of (df : DataFrame) : result (list value) :=
  col ← getitem df "city_name";
  py_sorted (unique (filter (λ v, notna v) col)).

(** [st.selectbox(label, options, index=0)]: the option the user chose, [None]
    when there is nothing to choose from. *)
Definition selectbox (label : str) (options : list value) (chosen : nat)
    : script value :=
  emit (Selectbox label options 0);;
  mret (default VNone (options !! chosen)).

(** *** Texts *)

Definition default_csv_path : str := lit "data/hotels_weather_final_ter.csv".

(** [os.getenv("HOTELS_CSV", default)] *)
Definition CSV_PATH (hotels_csv : option str) : str :=
  default default_csv_path hotels_csv.

Definition page_title : str :=
  lit "<h1 style='text-align:center; margin-top:0;'>Top Hotels by City (France)</h1>".

Definition empty_notice (selected_city : value) : str :=
  lit "No hotels meeting the criteria in **" ++ py_str selected_city ++
  lit "**.".

Definition city_title (nb_hotels : nat) (selected_city : value)
    : result str :=
  city ← html_escape_value selected_city;
  Ok (lit "<h2 style='text-align:center;'>Top " ++
      digits (N.of_nat nb_hotels) ++ lit " Hotels in " ++ city ++
      lit "</h2>").

Definition c_green_circle : char := 0x1F7E2%N.
Definition c_orange_circle : char := 0x1F7E0%N.
Definition c_red_circle : char := 0x1F534%N.
Definition c_em_space : char := 0x2003%N.
Definition c_ge_sign : char := 0x2265%N.
Definition c_en_dash : char := 0x2013%N.

Definition legend : str :=
  lit "**Legend:** " ++
  [c_green_circle] ++ lit " " ++ [c_ge_sign] ++ lit " 9.0" ++ [c_em_space] ++
  [c_orange_circle] ++ lit " 8.0" ++ [c_en_dash] ++ lit "8.9" ++
    [c_em_space] ++
  [c_red_circle] ++ lit " < 8.0".

(** *** The script, top to bottom *)

Definition app (hotels_csv : option str) (ui : Interaction) : script () :=
  df ← lift (load_data (CSV_PATH hotels_csv));
  emit (Markdown page_title true);;
  emit (SidebarMarkdown (lit "### Filters"));;
  cities ← lift (cities_of df);
  selected_city ← selectbox (lit "Choose a city") cities (chosen_city ui);
  emit (Slider (lit "Minimum rating"));;
  emit (Slider (lit "Number of hotels"));;
  city_df ← lift (select df selected_city (min_rating ui) (top_n ui));
  (if empty city_df
   then emit (Warning (empty_notice selected_city));; st_stop
   else mret ());;
  let nb_hotels := length (rows city_df) in
  title ← lift (city_title nb_hotels selected_city);
  emit (Markdown title true);;
  m ← lift (build_map city_df);
  emit (Folium m 1000 600);;
  emit (Markdown legend false).

(** One run on a fresh page. *)
Definition run (hotels_csv : option str) (ui : Interaction)
    : list ui_event * status () :=
  app hotels_csv ui [].

End Program.

Arguments Continue {A} a.
Arguments Stopped {A}.
Arguments Uncaught {A} e.

(** ** The legend, entry by entry *)

(** [s.split(c)] *)
Fixpoint split_on (c : char) (s : str) : list str :=
  match s with
  | [] => [[]]
  | x :: s' =>
      if decide (x = c) then [] :: split_on c s'
      else
        match split_on c s' with
        | [] => [[x]]
        | w :: ws => (x :: w) :: ws
        end
  end.

(** The entries of the legend: what follows the heading, cut at the em
    spaces. *)
Definition legend_entries : list str :=
  split_on c_em_space (drop (length (lit "**Legend:** ")) legend).

(** ** Concrete runtimes *)

(** An argsort from a merge sort of the (key, position) pairs: descending
    keys, NaN last, equal keys ordered by [tie] on their positions. *)
Definition pair_before (tie : nat → nat → bool) (x y : float64 * nat)
    : Prop :=
  sorts_before x.1 y.1 ∧ (sorts_before y.1 x.1 → tie x.2 y.2).

Global Instance pair_before_dec tie x y : Decision (pair_before tie x y).
Proof. unfold pair_before. apply _. Defined.

Definition argsort_by (tie : nat → nat → bool) (keys : list float64)
    : list nat :=
  (merge_sort (pair_before tie) (zip keys (seq 0 (length keys)))).*2.

(** Unsigned decimal numerals, enough of [to_numeric] and [float] for the
    examples. *)
Fixpoint parse_digits (acc : N) (s : str) : option N :=
  match s with
  | [] => Some acc
  | c :: s' =>
      if bool_decide (48 ≤ c ∧ c ≤ 57)%N
      then parse_digits (10 * acc + (c - 48))%N s'
      else None
  end.

Definition parse_decimal (s : str) : option float64 :=
  match split_on 46%N s with
  | [i] =>
      if bool_decide (i = []) then None
      else n ← parse_digits 0 i; Some (Fin (inject_Z (Z.of_N n)))
  | [i; f] =>
      if bool_decide (i = [] ∧ f = []) then None
      else
        n ← parse_digits 0 i;
        m ← parse_digits 0 f;
        Some (Fin (Qred (inject_Z (Z.of_N n) +
                         (Z.of_N m # Pos.of_nat (10 ^ length f)))%Q))
  | _ => None
  end.

(** A file system with one file, whatever the path.  The examples print no
    float through [str], so [float_repr] borrows the one-decimal format. *)
Definition runtime_of (table : DataFrame) (tie : nat → nat → bool)
    : Runtime :=
  {| read_csv := λ _, Ok table;
     parse_numeric := parse_decimal;
     float_repr := λ q, format_1f (Fin q);
     float_of_str := parse_decimal;
     argsort_desc := argsort_by tie |}.

Definition hotel (city name rating lat lon url desc : value)
    : gmap string value :=
  list_to_map
    [("city_name", city); ("hotel_name", name); ("hotel_rating", rating);
     ("hotel_latitude", lat); ("hotel_longitude", lon); ("hotel_url", url);
     ("hotel_description", desc)].

Definition hotel_columns : list string :=
  ["city_name"; "hotel_name"; "hotel_rating"; "hotel_latitude";
   "hotel_longitude"; "hotel_url"; "hotel_description"].

Definition blank : value := VFloat NaN.
Definition num (q : Q) : value := VFloat (Fin q).
Definition txt (s : string) : value := VStr (lit s).

(** A small file: a rating column that did not parse as numbers throughout,
    so that pandas kept it as text. *)
Definition sample_table : DataFrame :=
  {| columns := hotel_columns;
     rows :=
       [(0, hotel (txt "Paris") (txt "Lutetia") (txt "9.5") (num 48.85)
               (num 2.33) (txt "https://example.org/lutetia")
               (txt "Left bank <palace> & spa"));
        (1, hotel (txt "Paris") (txt "Le Pigalle") (txt "8.2") (num 48.88)
               (num 2.34) (txt "https://example.org/pigalle") (txt "Lively"));
        (2, hotel (txt "Paris") (txt "Sans Note") blank (num 48.86)
               (num 2.35) (txt "https://example.org/sans") (txt "No rating"));
        (3, hotel (txt "Paris") blank (txt "8.2") (num 48.87)
               (num 2.36) blank blank);
        (4, hotel (txt "Paris") (txt "Mal Note") (txt "n/c") (num 48.80)
               (num 2.30) (txt "https://example.org/mal") (txt "Unparsed"));
        (5, hotel (txt "Lyon") (txt "Le Royal") (txt "7.0") (num 45.76)
               (num 4.83) (txt "https://example.org/royal") (txt "Old town"));
        (6, hotel (txt "Paris") (txt "Sans Lieu") (txt "9.9") blank
               (num 2.31) (txt "https://example.org/lieu") (txt "Nowhere"))]
  |}.

(** Equal keys in their original order, as [kind="stable"] gives them. *)
Definition stable_runtime : Runtime :=
  runtime_of sample_table (λ i j, i <=? j).

(** Equal keys in the opposite order, which the default kind allows. *)
Definition reversing_runtime : Runtime :=
  runtime_of sample_table (λ i j, j <=? i).

(** The sample file as [load_data] returns it. *)
Definition loaded_sample : DataFrame :=
  match load_data (R := stable_runtime) default_csv_path with
  | Ok df => df
  | Raise _ => {| columns := []; rows := [] |}
  end.

(** ** Auxiliary notions for the statements *)

(** One character through [html.escape]. *)
Definition escape_char (c : char) : str :=
  if decide (c = c_amp) then lit "&amp;"
  else if decide (c = c_lt) then lit "&lt;"
  else if decide (c = c_gt) then lit "&gt;"
  else if decide (c = c_dquote) then lit "&quot;"
  else if decide (c = c_squote) then lit "&#x27;"
  else [c].

(** A character that can open or close a tag or an attribute value. *)
Definition breaks_markup (c : char) : Prop :=
  c = c_lt ∨ c = c_gt ∨ c = c_dquote ∨ c = c_squote.

(** Every [<] of [s] is followed, inside [s], by something other than [n]. *)
Fixpoint guarded (n : str) (s : str) : bool :=
  match s with
  | [] => true
  | x :: s' =>
      (if decide (x = c_lt)
       then bool_decide (length n ≤ length s') && negb (is_prefix n s')
       else true) && guarded n s'
  end.

(** The description lost characters to the cut at 300. *)
Definition desc_truncated {R : Runtime} (desc : value) : Prop :=
  300 < length (html_escape (py_str desc)).

(** The shown description is the cut text followed by the ellipsis. *)
Definition ellipsis_appended {R : Runtime} (desc : value) : Prop :=
  safe_desc desc = take 300 (html_escape (py_str desc)) ++ lit "...".

(** The row that [load_data] makes of a row of the file. *)
Definition coerced {R : Runtime} (r0 : nat * gmap string value)
    : nat * gmap string value :=
  (r0.1,
   <["hotel_rating" := VFloat (to_numeric (cell "hotel_rating" r0))]> r0.2).

(** A description that hides the tag behind 300 other characters, and one
    that opens with it. *)
Definition late_script : str := replicate 300 97%N ++ lit "<script>".

Definition late_script_row : gmap string value :=
  hotel (txt "Paris") (txt "Ritz") (num 9.1) (num 48.86) (num 2.32)
    (txt "https://example.org/ritz") (VStr late_script).

Definition script_row : gmap string value :=
  hotel (txt "Paris") (txt "Ritz") (num 9.1) (num 48.86) (num 2.32)
    (txt "https://example.org/ritz") (txt "<script>alert(1)</script>").

(** The field is there and holds something other than NaN or [None]. *)
Definition present (row : gmap string value) (c : string) : Prop :=
  ∃ v, row !! c = Some v ∧ isna v = false.

(** The invariant of a loaded record: a numeric rating and both
    coordinates. *)
Definition valid_record (row : gmap string value) : Prop :=
  (∃ f, row !! "hotel_rating" = Some (VFloat f) ∧ is_nan f = false) ∧
  present row "hotel_latitude" ∧
  present row "hotel_longitude".

(** The rating of a row as a sort key. *)
Definition rating_key (r : nat * gmap string value) : float64 :=
  match cell "hotel_rating" r with
  | VFloat f => f
  | _ => NaN
  end.

(** The rating column holds a number (possibly NaN) in this row. *)
Definition numeric_rating (r : nat * gmap string value) : Prop :=
  ∃ f, cell "hotel_rating" r = VFloat f.

(** Row [a] is rated at least as high as row [b]. *)
Definition rating_ge (a b : nat * gmap string value) : Prop :=
  ∃ x y,
    cell "hotel_rating" a = VFloat x ∧ cell "hotel_rating" b = VFloat y ∧
    float_geb x y = true.

(** The row is in the selected city and meets the minimum rating. *)
Definition matches (city : value) (min_rating : float64)
    (r : nat * gmap string value) : Prop :=
  py_eq (cell "city_name" r) city = true ∧
  holds (py_ge (cell "hotel_rating" r) min_rating).

Global Instance matches_dec city min_rating r :
  Decision (matches city min_rating r).
Proof. unfold matches. apply _. Defined.

(** The rows of the selected city, and what [select] makes of them before
    the cut at [top_n]: sorted, then filtered by the minimum rating. *)
Definition city_rows (df : DataFrame) (city : value)
    : list (nat * gmap string value) :=
  filter (λ r, py_eq (cell "city_name" r) city = true) (rows df).

Definition selection {R : Runtime} (df : DataFrame) (city : value)
    (min_rating : float64) : list (nat * gmap string value) :=
  filter (λ r, holds (py_ge (cell "hotel_rating" r) min_rating))
    (omap (city_rows df city !!.)
       (argsort_desc (rating_key <$> city_rows df city))).

(** Rows of [out] with equal ratings stand in the order they have in [df]. *)
Definition keeps_dataset_order (df out : DataFrame) : Prop :=
  ∀ p q x y,
    p < q → rows out !! p = Some x → rows out !! q = Some y →
    rating_ge x y → rating_ge y x →
    ∃ p' q', p' < q' ∧ rows df !! p' = Some x ∧ rows df !! q' = Some y.

(** What is on the page once the widgets are drawn. *)
Definition page_with_widgets (cities : list value) : list ui_event :=
  [Markdown page_title true;
   SidebarMarkdown (lit "### Filters");
   Selectbox (lit "Choose a city") cities 0;
   Slider (lit "Minimum rating");
   Slider (lit "Number of hotels")].

(** The three colours a rated hotel can get. *)
Definition rated_colors : list (list N) :=
  [lit "green"; lit "orange"; lit "red"].

(** The event is a rendered map. *)
Definition is_map (e : ui_event) : Prop :=
  match e with
  | Folium _ _ _ => True
  | _ => False
  end.

(** The category a symbol at the head of a legend entry stands for: the
    three coloured circles of the script and, for gray, the white, black and
    radio-button circles that could stand in for a gray one. *)
Definition symbol_category (c : char) : option MarkerCategory :=
  if decide (c = c_green_circle) then Some green
  else if decide (c = c_orange_circle) then Some orange
  else if decide (c = c_red_circle) then Some red
  else if bool_decide (c ∈ [0x26AA%N; 0x26AB%N; 0x1F518%N]) then Some gray
  else None.

(** The legend describes a category: an entry opens with a symbol of the
    category, or the text names its colour. *)
Definition legend_describes (c : MarkerCategory) : Prop :=
  (∃ (entry : list N) sym,
     entry ∈ legend_entries ∧ entry !! 0 = Some sym ∧
     symbol_category sym = Some c) ∨
  contains (category_color c) legend.

(** A record of the sample file whose name, URL and description are blank;
    [load_data] keeps it under the label 3. *)
Definition is_blank_record (row : gmap string value) : Prop :=
  rows loaded_sample !! 2 = Some (3, row) ∧
  row !! "hotel_name" = Some blank ∧
  row !! "hotel_url" = Some blank ∧
  row !! "hotel_description" = Some blank.

(** The four local variables at the head of the loop body. *)
Definition name_of (row : gmap string value) : value :=
  row_get row "hotel_name" (VStr (lit "Unknown Hotel")).
Definition rating_of (row : gmap string value) : value :=
  row_get row "hotel_rating" VNone.
Definition url_of (row : gmap string value) : value :=
  row_get row "hotel_url" (VStr (lit "#")).
Definition desc_of (row : gmap string value) : value :=
  row_get row "hotel_description" (VStr []).

(** The characters a formatted number is made of. *)
Definition numeric_char (c : char) : Prop := c ∈ lit "-.0123456789infa".

(** Both coordinates of the row are numbers. *)
Definition numeric_coordinates (row : gmap string value) : Prop :=
  ∃ a b, row !! "hotel_latitude" = Some (VFloat a) ∧
         row !! "hotel_longitude" = Some (VFloat b).

(** What the loop body makes of a record that passed the loader. *)
Definition renders_rated {R : Runtime} (row : gmap string value)
    (m : Marker) : Prop :=
  ∃ f,
    row !! "hotel_rating" = Some (VFloat f) ∧ is_nan f = false ∧
    rating_txt (rating_of row) = Ok (format_1f f) ∧
    format_1f f ≠ lit "N/A" ∧
    popup m =
      popup_html (html_escape (py_str (name_of row))) (format_1f f)
        (safe_desc (desc_of row)) (html_escape (py_str (url_of row))) ∧
    color_by_rating (VFloat f) = Ok (icon_color m) ∧
    icon_color m ∈ rated_colors ∧
    icon_color m ≠ lit "gray".

(** The columns [load_data] asks for. *)
Definition required_columns : list string :=
  ["hotel_rating"; "hotel_latitude"; "hotel_longitude"].

(** A frame that holds only records meeting the loader's invariant. *)
Definition clean_frame (df : DataFrame) : Prop :=
  Forall (λ c, c ∈ columns df) required_columns ∧
  Forall (λ r, valid_record r.2) (rows df).

(** How good a marker colour is. *)
Definition color_rank (c : list N) : nat :=
  if decide (c = lit "green") then 3
  else if decide (c = lit "orange") then 2
  else if decide (c = lit "red") then 1
  else 0.

(** How often a character occurs in a string. *)
Definition count_char (c : char) (s : str) : nat :=
  length (filter (λ x, x = c) s).

(** The text of the city heading for a city name and a number of hotels. *)
Definition city_heading (nb_hotels : nat) (city : str) : str :=
  lit "<h2 style='text-align:center;'>Top " ++
  digits (N.of_nat nb_hotels) ++ lit " Hotels in " ++ html_escape city ++
  lit "</h2>".

(** A clean copy of the sample file, and a runtime that reads it. *)
Definition clean_runtime : Runtime :=
  runtime_of loaded_sample (λ i j, i <=? j).

(** A file without the latitude column. *)
Definition no_latitude_table : DataFrame :=
  {| columns := ["city_name"; "hotel_name"; "hotel_rating"; "hotel_longitude"];
     rows := [] |}.

Definition no_latitude_runtime : Runtime :=
  runtime_of no_latitude_table (λ i j, i <=? j).

(** A file whose rows all lost their rating: nothing is left to show. *)
Definition unrated_table : DataFrame :=
  {| columns := hotel_columns;
     rows :=
       [(0, hotel (txt "Paris") (txt "Lutetia") blank (num 48.85)
               (num 2.33) (txt "https://example.org/lutetia") (txt "Palace"));
        (1, hotel (txt "Lyon") (txt "Le Royal") (txt "n/c") (num 45.76)
               (num 4.83) (txt "https://example.org/royal") (txt "Old town"))]
  |}.

Definition unrated_runtime : Runtime :=
  runtime_of unrated_table (λ i j, i <=? j).

(** A file with a latitude that is there but is no number. *)
Definition bad_latitude_table : DataFrame :=
  {| columns := hotel_columns;
     rows :=
       [(0, hotel (txt "Paris") (txt "Lutetia") (num 9.5) (txt "nord")
               (num 2.33) (txt "https://example.org/lutetia")
               (txt "Palace"))]
  |}.

Definition bad_latitude_runtime : Runtime :=
  runtime_of bad_latitude_table (λ i j, i <=? j).

(** * Properties *)

(** Closed goals on literals: membership, inequality. *)
Ltac by_evaluation :=
  idtac;
  match goal with
  | |- ?P => apply (bool_decide_unpack P); vm_compute; exact I
  end.

(** A character of a literal, case by case. *)
Tactic Notation "each_char" hyp(H) tactic3(tac) :=
  vm_compute in H;
  repeat (apply elem_of_cons in H as [-> | H]; [tac |]);
  by apply elem_of_nil in H.

(** A membership that is decided by naming the element. *)
Ltac by_evaluation_cat := rewrite !elem_of_cons; auto 10.

(** No legend among the events of a page that ends early. *)
Ltac no_legend :=
  let H := fresh "Hin" in
  intros H; repeat (apply elem_of_cons in H as [[=] | H]);
  by apply elem_of_nil in H.

(** ** Strings *)

Lemma is_prefix_spec p s : is_prefix p s = true ↔ ∃ k, s = p ++ k.
Proof.
  revert s. induction p as [|a p IH]; intros s; simpl.
  - split; eauto.
  - destruct s as [|b s].
    + split; [done | intros [k Hk]; done].
    + rewrite andb_true_iff, bool_decide_eq_true, IH. split.
      * intros [-> [k ->]]. eauto.
      * intros [k Hk]. injection Hk as -> ->. eauto.
Qed.

Lemma containsb_spec needle hay :
  containsb needle hay = true ↔ contains needle hay.
Proof.
  unfold contains. induction hay as [|x hay IH]; simpl.
  - rewrite orb_false_r, is_prefix_spec. split.
    + intros [k Hk]. exists [], k. done.
    + intros [pre [post Hk]]. destruct pre; [eauto | done].
  - rewrite orb_true_iff, is_prefix_spec, IH. split.
    + intros [[k Hk] | [pre [post Hk]]].
      * exists [], k. done.
      * exists (x :: pre), post. by rewrite Hk.
    + intros [[|y pre] [post Hk]].
      * left. eauto.
      * right. injection Hk as -> ->. eauto.
Qed.

Lemma contains_middle needle pre post : contains needle (pre ++ needle ++ post).
Proof. by exists pre, post. Qed.

Lemma html_escape_app a b :
  html_escape (a ++ b) = html_escape a ++ html_escape b.
Proof. unfold html_escape, replace_char. by rewrite !bind_app. Qed.

Lemma html_escape_single x : html_escape [x] = escape_char x.
Proof.
  unfold escape_char.
  repeat case_decide; subst; try done.
  unfold html_escape, replace_char. simpl.
  repeat (case_decide; [done |]; simpl). done.
Qed.

Lemma html_escape_cons x s :
  html_escape (x :: s) = escape_char x ++ html_escape s.
Proof.
  change (x :: s) with ([x] ++ s).
  by rewrite html_escape_app, html_escape_single.
Qed.

Lemma html_escape_nil : html_escape [] = [].
Proof. done. Qed.

Lemma escape_char_safe x c : c ∈ escape_char x → ¬ breaks_markup c.
Proof.
  unfold escape_char, breaks_markup.
  repeat case_decide; subst; intros Hc.
  1-5: intros Hb; vm_compute in Hc;
    repeat (apply elem_of_cons in Hc as [-> | Hc];
            [by destruct Hb as [? | [? | [? | ?]]] |]);
    by apply elem_of_nil in Hc.
  apply list_elem_of_singleton in Hc as ->.
  intros [? | [? | [? | ?]]]; congruence.
Qed.

Lemma html_escape_safe s c : c ∈ html_escape s → ¬ breaks_markup c.
Proof.
  induction s as [|x s IH]; [by rewrite html_escape_nil, elem_of_nil |].
  rewrite html_escape_cons, elem_of_app.
  intros [Hc | Hc]; [by eapply escape_char_safe | by apply IH].
Qed.

Lemma escape_char_length x : 1 ≤ length (escape_char x).
Proof. unfold escape_char. repeat case_decide; simpl; lia. Qed.

Lemma html_escape_length s : length s ≤ length (html_escape s).
Proof.
  induction s as [|x s IH]; [done |].
  rewrite html_escape_cons, length_app. simpl.
  pose proof (escape_char_length x). lia.
Qed.

Lemma escape_char_plain x :
  markup_significant x = false → escape_char x = [x].
Proof.
  unfold markup_significant, escape_char. rewrite bool_decide_eq_false.
  intros Hx. repeat case_decide; subst; try done; exfalso; apply Hx;
    rewrite !elem_of_cons; tauto.
Qed.

Lemma html_escape_plain s :
  Forall (λ c, markup_significant c = false) s → html_escape s = s.
Proof.
  induction 1 as [|x s Hx _ IH]; [done |].
  by rewrite html_escape_cons, escape_char_plain, IH.
Qed.

Lemma is_prefix_app_le n a b :
  length n ≤ length a → is_prefix n (a ++ b) = is_prefix n a.
Proof.
  revert a. induction n as [|x n IH]; intros [|y a]; simpl; try done; [lia |].
  intros Hle. rewrite IH; [done | lia].
Qed.

Lemma guarded_app n a b : guarded n a → guarded n b → guarded n (a ++ b).
Proof.
  intros Ha Hb. induction a as [|x a IH]; [done |].
  simpl in *. apply andb_prop_elim in Ha as [Hx Ha].
  apply andb_prop_intro. split; [| by apply IH].
  case_decide; [| done].
  apply andb_prop_elim in Hx as [Hlen Hpre].
  apply bool_decide_unpack in Hlen.
  apply andb_prop_intro. split.
  - apply bool_decide_pack. rewrite length_app. lia.
  - by rewrite is_prefix_app_le.
Qed.

Lemma guarded_no_lt n x : c_lt ∉ x → guarded n x.
Proof.
  induction x as [|c x IH]; [done |].
  intros Hc. apply not_elem_of_cons in Hc as [Hc Hx]. simpl.
  case_decide; [done |]. by apply IH.
Qed.

Lemma guarded_suffix n a b : guarded n (a ++ b) → guarded n b.
Proof.
  induction a as [|x a IH]; [done |].
  simpl. intros H. apply andb_prop_elim in H as [_ H]. by apply IH.
Qed.

Lemma guarded_not_contains n s : guarded n s → ¬ contains (c_lt :: n) s.
Proof.
  intros Hg [pre [post ->]].
  apply guarded_suffix in Hg. simpl in Hg.
  case_decide; [| done].
  apply andb_prop_elim in Hg as [Hg _].
  apply andb_prop_elim in Hg as [_ Hg].
  apply negb_prop_elim in Hg. apply Hg.
  apply Is_true_true, is_prefix_spec. eauto.
Qed.

(** ** Floats and the rating classifier *)

Lemma float_geb_fin x y : float_geb (Fin x) (Fin y) = true ↔ (y <= x)%Q.
Proof. unfold float_geb. simpl. apply Qle_bool_iff. Qed.

Lemma float_geb_not_nan a b : float_geb a b = true → is_nan a = false.
Proof. by destruct a, b. Qed.

Lemma color_by_rating_fin q :
  color_by_rating (VFloat (Fin q)) =
    Ok (if Qle_bool 9 q then lit "green"
        else if Qle_bool 8 q then lit "orange" else lit "red").
Proof.
  unfold color_by_rating, py_ge, float_geb, f9_0, f8_0. simpl.
  by destruct (Qle_bool 9 q), (Qle_bool 8 q).
Qed.

Lemma color_by_rating_inf :
  color_by_rating (VFloat PosInf) = Ok (lit "green") ∧
  color_by_rating (VFloat NegInf) = Ok (lit "red").
Proof. done. Qed.

Lemma color_by_rating_str s : color_by_rating (VStr s) = Raise TypeError.
Proof. done. Qed.

(** A rating that is a number is never gray. *)
Lemma color_by_rating_number f :
  is_nan f = false →
  ∃ c, color_by_rating (VFloat f) = Ok c ∧
       c ∈ [lit "green"; lit "orange"; lit "red"].
Proof.
  destruct f as [| |q|]; [done | | |]; intros _.
  - exists (lit "red"). split; [done | set_solver].
  - rewrite color_by_rating_fin.
    destruct (Qle_bool 9 q), (Qle_bool 8 q); eexists; (split; [done |]);
      set_solver.
  - exists (lit "green"). split; [done | set_solver].
Qed.

(** C4: [color_by_rating] returns, without raising, on every rating that is
    a float or missing: gray for a missing one ([None] or NaN); for a finite
    rating green from 9.0 up, orange from 8.0 up to but excluding 9.0, red
    below 8.0, hence one of the three; 9.0 itself is green and 8.0 itself is
    orange. *)
Theorem C4_color_by_rating_classifies :
  color_by_rating VNone = Ok (lit "gray") ∧
  color_by_rating (VFloat NaN) = Ok (lit "gray") ∧
  (∀ q : Q,
     ((9 <= q)%Q → color_by_rating (VFloat (Fin q)) = Ok (lit "green")) ∧
     ((8 <= q)%Q → (q < 9)%Q →
        color_by_rating (VFloat (Fin q)) = Ok (lit "orange")) ∧
     ((q < 8)%Q → color_by_rating (VFloat (Fin q)) = Ok (lit "red")) ∧
     (∃ c, color_by_rating (VFloat (Fin q)) = Ok c ∧
           c ∈ [lit "green"; lit "orange"; lit "red"])) ∧
  color_by_rating (VFloat (Fin 9)) = Ok (lit "green") ∧
  color_by_rating (VFloat (Fin 8)) = Ok (lit "orange").
Proof.
  split; [done |]. split; [done |]. split; [| done].
  intros q. rewrite color_by_rating_fin.
  destruct (Qle_bool 9 q) eqn:H9; [| destruct (Qle_bool 8 q) eqn:H8].
  - apply Qle_bool_iff in H9. repeat split.
    + intros _ Hlt. by apply Qlt_not_le in Hlt.
    + intros Hlt. exfalso. apply (Qlt_not_le _ _ Hlt).
      apply Qle_trans with 9%Q; [done | exact H9].
    + eexists. split; [done | set_solver].
  - apply Qle_bool_iff in H8. repeat split.
    + intros H. apply Qle_bool_iff in H. congruence.
    + intros Hlt. by apply Qlt_not_le in Hlt.
    + eexists. split; [done | set_solver].
  - repeat split.
    + intros H. apply Qle_bool_iff in H. congruence.
    + intros H. apply Qle_bool_iff in H. congruence.
    + eexists. split; [done | set_solver].
Qed.

Lemma C4_color_by_rating_classifies_witness :
  color_by_rating (VFloat (Fin 8.5)) = Ok (lit "orange") ∧
  color_by_rating (VFloat (Fin 9.3)) = Ok (lit "green") ∧
  color_by_rating (VFloat (Fin 7.9)) = Ok (lit "red").
Proof.
  pose proof C4_color_by_rating_classifies as (_ & _ & H & _).
  split; [| split].
  - apply (H 8.5%Q); [unfold Qle | unfold Qlt]; simpl; lia.
  - apply (H 9.3%Q). unfold Qle; simpl; lia.
  - apply (H 7.9%Q). unfold Qlt; simpl; lia.
Defined.

(** ** Formatted ratings *)

Lemma uint_digits_numeric u c : c ∈ uint_digits u → numeric_char c.
Proof.
  unfold numeric_char.
  induction u as [|u IH|u IH|u IH|u IH|u IH|u IH|u IH|u IH|u IH|u IH];
    simpl; [by rewrite elem_of_nil | ..];
    (intros [-> | Hc]%elem_of_cons; [by_evaluation | by apply IH]).
Qed.

Lemma format_1f_numeric f c : c ∈ format_1f f → numeric_char c.
Proof.
  destruct f as [| |q|]; unfold format_1f, numeric_char.
  1,2,4: intros Hc; each_char Hc by_evaluation.
  rewrite !elem_of_app. intros [Hc | [Hc | [Hc | Hc]]].
  - destruct (Qle_bool 0 q); [by apply elem_of_nil in Hc |].
    each_char Hc by_evaluation.
  - by eapply uint_digits_numeric.
  - each_char Hc by_evaluation.
  - by eapply uint_digits_numeric.
Qed.

Lemma numeric_char_not_lt c : numeric_char c → c ≠ c_lt.
Proof.
  unfold numeric_char. intros Hc ->. revert Hc.
  change (c_lt ∉ lit "-.0123456789infa"). by_evaluation.
Qed.

Lemma numeric_char_not_N c : numeric_char c → c ≠ 78%N.
Proof.
  unfold numeric_char. intros Hc ->. revert Hc.
  change (78%N ∉ lit "-.0123456789infa"). by_evaluation.
Qed.

Section Rendering.
Context {R : Runtime}.

Lemma rating_txt_no_lt rating txt : rating_txt rating = Ok txt → c_lt ∉ txt.
Proof.
  unfold rating_txt, notna. destruct rating as [|f|s]; simpl.
  - intros [= <-]. by_evaluation.
  - destruct (is_nan f); simpl.
    + intros [= <-]. by_evaluation.
    + intros [= <-] Hc. by apply format_1f_numeric, numeric_char_not_lt in Hc.
  - done.
Qed.

(** The text of a rating that is a number is its formatted value. *)
Lemma rating_txt_number f :
  is_nan f = false →
  rating_txt (VFloat f) = Ok (format_1f f) ∧ format_1f f ≠ lit "N/A".
Proof.
  intros Hf. unfold rating_txt, notna. simpl. rewrite Hf. split; [done |].
  intros Heq.
  assert (78%N ∈ format_1f f) as Hc by (rewrite Heq; by_evaluation).
  by apply format_1f_numeric, numeric_char_not_N in Hc.
Qed.

Lemma safe_desc_safe desc c : c ∈ safe_desc desc → ¬ breaks_markup c.
Proof.
  unfold safe_desc. rewrite elem_of_app. intros [Hc | Hc].
  - apply elem_of_take in Hc as (i & Hc & _).
    eapply html_escape_safe, list_elem_of_lookup_2, Hc.
  - case_bool_decide; [| by apply elem_of_nil in Hc].
    unfold breaks_markup.
    each_char Hc (intros [? | [? | [? | ?]]]; done).
Qed.

Lemma guarded_popup_html a b c d :
  c_lt ∉ a → c_lt ∉ b → c_lt ∉ c → c_lt ∉ d →
  guarded (lit "sc") (popup_html a b c d).
Proof.
  intros Ha Hb Hc Hd. unfold popup_html.
  repeat (apply guarded_app; [first [done | by apply guarded_no_lt] |]).
  done.
Qed.

Lemma contains_longer a b s : contains (a ++ b) s → contains a s.
Proof.
  intros (pre & post & ->). exists pre, (b ++ post). by rewrite <- app_assoc.
Qed.

Lemma contains_popup_desc a b c d : contains c (popup_html a b c d).
Proof.
  unfold popup_html. eexists _, _.
  rewrite !(app_assoc _ _ (c ++ _)). reflexivity.
Qed.

(** What a successful pass through the loop body has computed. *)
Lemma render_row_inv row m :
  render_row row = Ok m →
  ∃ txt lat lon r c,
    rating_txt (rating_of row) = Ok txt ∧
    row !! "hotel_latitude" = Some lat ∧
    row !! "hotel_longitude" = Some lon ∧
    row !! "hotel_rating" = Some r ∧
    color_by_rating r = Ok c ∧
    validate_location lat lon = Ok (location m) ∧
    m = {| location := location m;
           popup := popup_html (html_escape (py_str (name_of row))) txt
                      (safe_desc (desc_of row))
                      (html_escape (py_str (url_of row)));
           popup_max_width := 320; icon_color := c;
           icon := lit "info-sign" |}.
Proof.
  unfold render_row, row_getitem, rating_of, name_of, desc_of, url_of.
  destruct (rating_txt _) as [txt|]; [| done]. simpl.
  destruct (row !! "hotel_latitude") as [lat|]; [| done]. simpl.
  destruct (row !! "hotel_longitude") as [lon|]; [| done]. simpl.
  destruct (row !! "hotel_rating") as [r|]; [| done]. simpl.
  destruct (color_by_rating r) as [c|] eqn:Hc; [| done]. simpl.
  destruct (validate_location lat lon) as [loc|] eqn:Hloc; [| done]. simpl.
  intros [= <-]. by exists txt, lat, lon, r, c.
Qed.


End Rendering.



(** ** Escaping in the popup *)

Section Escaping.
Context {R : Runtime}.

(** C3 (as the code has it): the popup is the fixed template around the
    escaped name, the rating text, the escaped description cut at 300
    characters, and the escaped URL.  None of the three injected strings
    holds a character that opens or closes a tag or an attribute value; the
    popup contains the first 300 characters of the escaped description, all
    of it when it is that short; and no raw [<script] tag occurs in the
    popup, whatever the row holds. *)
Theorem C3_popup_escapes_data (row : gmap string value) (m : Marker) :
  render_row row = Ok m →
  (∃ txt,
     rating_txt (rating_of row) = Ok txt ∧
     popup m =
       popup_html (html_escape (py_str (name_of row))) txt
         (take 300 (html_escape (py_str (desc_of row))) ++
          (if bool_decide (300 < length (py_str (desc_of row)))
           then lit "..." else []))
         (html_escape (py_str (url_of row)))) ∧
  Forall (λ c, ¬ breaks_markup c) (html_escape (py_str (name_of row))) ∧
  Forall (λ c, ¬ breaks_markup c) (safe_desc (desc_of row)) ∧
  Forall (λ c, ¬ breaks_markup c) (html_escape (py_str (url_of row))) ∧
  contains (take 300 (html_escape (py_str (desc_of row)))) (popup m) ∧
  (length (html_escape (py_str (desc_of row))) ≤ 300 →
     contains (html_escape (py_str (desc_of row))) (popup m)) ∧
  (∀ rest, ¬ contains (lit "<script" ++ rest) (popup m)).
Proof.
  intros (txt & lat & lon & r & c & Htxt & _ & _ & _ & _ & _ & ->)
    %render_row_inv.
  cbn [popup].
  assert (Hname : ∀ c, c ∈ html_escape (py_str (name_of row)) →
                       ¬ breaks_markup c) by apply html_escape_safe.
  assert (Hurl : ∀ c, c ∈ html_escape (py_str (url_of row)) →
                      ¬ breaks_markup c) by apply html_escape_safe.
  assert (Hdesc : ∀ c, c ∈ safe_desc (desc_of row) → ¬ breaks_markup c)
    by apply safe_desc_safe.
  assert (Hshown : contains (take 300 (html_escape (py_str (desc_of row))))
            (popup_html (html_escape (py_str (name_of row))) txt
               (safe_desc (desc_of row))
               (html_escape (py_str (url_of row))))).
  { destruct (contains_popup_desc (html_escape (py_str (name_of row))) txt
                (safe_desc (desc_of row))
                (html_escape (py_str (url_of row)))) as (pre & post & Heq).
    rewrite Heq. unfold safe_desc. rewrite <- app_assoc.
    apply contains_middle. }
  split; [by exists txt |].
  split; [by apply Forall_forall |].
  split; [by apply Forall_forall |].
  split; [by apply Forall_forall |].
  split; [done |].
  split.
  - intros Hle. by rewrite take_ge in Hshown.
  - intros rest Hin.
    apply (contains_longer (c_lt :: lit "sc") (lit "ript" ++ rest)) in Hin.
    revert Hin.
    apply guarded_not_contains, guarded_popup_html.
    + intros Hc. apply Hname in Hc. apply Hc. by left.
    + by eapply rating_txt_no_lt.
    + intros Hc. apply Hdesc in Hc. apply Hc. by left.
    + intros Hc. apply Hurl in Hc. apply Hc. by left.
Qed.

End Escaping.

Lemma C3_popup_escapes_data_witness :
  ∃ m, render_row (R := stable_runtime) script_row = Ok m ∧
       contains (lit "&lt;script&gt;alert(1)&lt;/script&gt;") (popup m) ∧
       ¬ contains (lit "<script>") (popup m).
Proof.
  eexists. split; [reflexivity |].
  pose proof (C3_popup_escapes_data (R := stable_runtime) script_row _ eq_refl)
    as (_ & _ & _ & _ & _ & Hwhole & Hraw).
  split.
  - apply Hwhole. vm_compute. lia.
  - apply (Hraw (lit ">")).
Defined.

(** The claim C3 as written fails on a description whose tag lies beyond the
    cut: the popup holds neither the raw tag nor its escaped form. *)
Lemma C3_counterexample :
  ¬ (∀ (R : Runtime) (row : gmap string value) (desc : str) (m : Marker),
       row !! "hotel_description" = Some (VStr desc) →
       contains (lit "<script>") desc →
       render_row row = Ok m →
       contains (html_escape (lit "<script>")) (popup m) ∧
       ¬ contains (lit "<script>") (popup m)).
Proof.
  intros H.
  assert (∃ m, render_row (R := stable_runtime) late_script_row = Ok m ∧
               containsb (html_escape (lit "<script>")) (popup m) = false)
    as (m & Hm & Hno) by (eexists; split; vm_compute; reflexivity).
  destruct (H stable_runtime late_script_row late_script m eq_refl)
    as [Hesc _]; [| done |].
  - exists (replicate 300 97%N), []. by rewrite app_nil_r.
  - apply containsb_spec in Hesc. congruence.
Qed.

(** ** Dataset loader *)

Lemma cell_present c r : isna (cell c r) = false → present r.2 c.
Proof.
  unfold cell, present. destruct (r.2 !! c) as [v|]; [eauto | done].
Qed.

Lemma dropna_inv subset df df' :
  dropna subset df = Ok df' →
  Forall (λ c, c ∈ columns df) subset ∧
  columns df' = columns df ∧
  rows df' =
    filter (λ r, Forall (λ c, isna (cell c r) = false) subset) (rows df).
Proof.
  unfold dropna.
  destruct (filter _ subset) as [|c l] eqn:Hmissing; [| done].
  intros [= <-]. split; [| done].
  apply Forall_forall. intros c Hc.
  destruct (decide (c ∈ columns df)) as [|Hno]; [done |].
  exfalso. eapply filter_nil_not_elem_of; [exact Hmissing | exact Hno | done].
Qed.

Section Loader.
Context {R : Runtime}.

Lemma load_data_inv path df :
  load_data path = Ok df →
  ∃ raw,
    read_csv path = Ok raw ∧
    Forall (λ c, c ∈ columns raw)
      ["hotel_rating"; "hotel_latitude"; "hotel_longitude"] ∧
    columns df = columns raw ∧
    rows df =
      filter (λ r, Forall (λ c, isna (cell c r) = false) ["hotel_rating"])
        (coerced <$>
           filter (λ r, Forall (λ c, isna (cell c r) = false)
                          ["hotel_rating"; "hotel_latitude";
                           "hotel_longitude"])
             (rows raw)).
Proof.
  unfold load_data. destruct (read_csv path) as [raw|]; [| done]. simpl.
  destruct (dropna _ raw) as [df1|] eqn:H1; [| done]. simpl.
  destruct (dropna _ (map_column _ _ df1)) as [df2|] eqn:H2; [| done]. simpl.
  intros [= <-]. exists raw.
  apply dropna_inv in H1 as (Hcols & Hc1 & Hr1).
  apply dropna_inv in H2 as (_ & Hc2 & Hr2).
  split; [done |]. split; [done |]. split; [by rewrite Hc2 |].
  rewrite Hr2. simpl. by rewrite Hr1.
Qed.

(** The rows returned are the rows of the file that pass both [dropna],
    with the rating coerced. *)
Lemma load_data_rows path df :
  load_data path = Ok df →
  ∃ raw,
    read_csv path = Ok raw ∧
    ∀ r, r ∈ rows df ↔
      ∃ r0, r0 ∈ rows raw ∧
        isna (cell "hotel_rating" r0) = false ∧
        isna (cell "hotel_latitude" r0) = false ∧
        isna (cell "hotel_longitude" r0) = false ∧
        is_nan (to_numeric (cell "hotel_rating" r0)) = false ∧
        r = coerced r0.
Proof.
  intros (raw & Hraw & _ & _ & Hrows)%load_data_inv.
  exists raw. split; [done |].
  intros r. rewrite Hrows, list_elem_of_filter, list_elem_of_fmap. split.
  - intros (Hnum & r0 & -> & (H123 & Hin)%list_elem_of_filter).
    rewrite !Forall_cons in H123. rewrite Forall_cons in Hnum.
    destruct H123 as (H1 & H2 & H3 & _), Hnum as [Hnum _].
    exists r0. repeat split; try done.
    unfold cell, coerced in Hnum. simpl in Hnum.
    by rewrite lookup_insert_eq in Hnum.
  - intros (r0 & Hin & H1 & H2 & H3 & Hnum & ->).
    split.
    + apply Forall_cons_2; [| apply Forall_nil_2].
      unfold cell, coerced. simpl. by rewrite lookup_insert_eq.
    + exists r0. split; [done |]. apply list_elem_of_filter.
      split; [| done]. by repeat apply Forall_cons_2.
Qed.

Lemma load_data_valid path df :
  load_data path = Ok df → Forall (λ r, valid_record r.2) (rows df).
Proof.
  intros (raw & _ & Hmem)%load_data_rows.
  apply Forall_forall. intros r (r0 & _ & _ & Hlat & Hlon & Hnum & ->)%Hmem.
  unfold valid_record, coerced. simpl. split; [| split].
  - eexists. by rewrite lookup_insert_eq.
  - apply cell_present in Hlat as (v & Hv & Hna). exists v.
    by rewrite lookup_insert_ne.
  - apply cell_present in Hlon as (v & Hv & Hna). exists v.
    by rewrite lookup_insert_ne.
Qed.

Lemma load_data_columns path df :
  load_data path = Ok df →
  Forall (λ c, c ∈ columns df)
    ["hotel_rating"; "hotel_latitude"; "hotel_longitude"].
Proof. intros (raw & _ & Hcols & -> & _)%load_data_inv. done. Qed.

(** C2: every row that [load_data] returns holds a numeric, non-missing
    rating and a present latitude and longitude; the rows returned are
    exactly the rows of the file in which none of the three fields is
    missing and whose rating coerces to a number, with the rating replaced
    by that number. *)
Theorem C2_load_data_invariant (path : str) (df : DataFrame) :
  load_data path = Ok df →
  Forall (λ r, valid_record r.2) (rows df) ∧
  ∃ raw,
    read_csv path = Ok raw ∧
    ∀ r, r ∈ rows df ↔
      ∃ r0, r0 ∈ rows raw ∧
        isna (cell "hotel_rating" r0) = false ∧
        isna (cell "hotel_latitude" r0) = false ∧
        isna (cell "hotel_longitude" r0) = false ∧
        is_nan (to_numeric (cell "hotel_rating" r0)) = false ∧
        r = coerced r0.
Proof.
  intros Hload. split.
  - by eapply load_data_valid.
  - by apply load_data_rows.
Qed.

End Loader.

Lemma C2_load_data_invariant_witness :
  ∃ df, load_data (R := stable_runtime) default_csv_path = Ok df ∧
        (rows df).*1 = [0; 1; 3; 5] ∧
        Forall (λ r, valid_record r.2) (rows df).
Proof.
  eexists. split; [vm_compute; reflexivity |]. split; [reflexivity |].
  eapply proj1, (C2_load_data_invariant (R := stable_runtime) default_csv_path).
  vm_compute. reflexivity.
Defined.

(** ** Lists, indexers and sortedness *)

Lemma omap_lookup_seq {A} (k l : list A) :
  omap ((k ++ l) !!.) (seq (length k) (length l)) = l.
Proof.
  revert k. induction l as [|x l IH]; intros k; [done |].
  simpl. rewrite list_lookup_middle by done. f_equal.
  specialize (IH (k ++ [x])).
  rewrite length_app, <- app_assoc in IH. simpl in IH.
  by rewrite Nat.add_1_r in IH.
Qed.

(** Taking the rows named by a permutation of the positions permutes them. *)
Lemma omap_lookup_Permutation {A} (l : list A) (indexer : list nat) :
  indexer ≡ₚ seq 0 (length l) → omap (l !!.) indexer ≡ₚ l.
Proof.
  intros ->. pose proof (omap_lookup_seq [] l) as Hall.
  simpl in Hall. by rewrite Hall.
Qed.

Lemma omap_lookup_fmap {A B} (f : A → B) (l : list A) (indexer : list nat) :
  omap ((f <$> l) !!.) indexer = f <$> omap (l !!.) indexer.
Proof.
  induction indexer as [|i indexer IH]; [done |].
  simpl. rewrite list_lookup_fmap.
  destruct (l !! i); simpl; [f_equal |]; exact IH.
Qed.

Lemma omap_lookup_subseteq {A} (l : list A) (indexer : list nat) :
  omap (l !!.) indexer ⊆ l.
Proof.
  intros x (i & _ & Hx)%list_elem_of_omap. by eapply list_elem_of_lookup_2.
Qed.

(** With an indexer of valid positions, [take] keeps positions. *)
Lemma omap_lookup_valid {A} (l : list A) (indexer : list nat) p x :
  Forall (λ i, i < length l) indexer →
  omap (l !!.) indexer !! p = Some x →
  ∃ i, indexer !! p = Some i ∧ l !! i = Some x.
Proof.
  intros Hvalid. revert p.
  induction Hvalid as [|i indexer Hi _ IH]; intros p; [done |].
  simpl. apply lookup_lt_is_Some in Hi as [y Hy]. rewrite Hy.
  destruct p as [|p]; simpl.
  - intros [= <-]. eauto.
  - apply IH.
Qed.

Lemma sublist_lookup {A} (k l : list A) p x :
  k `sublist_of` l → k !! p = Some x → ∃ p', l !! p' = Some x.
Proof.
  intros Hsub Hp. apply list_elem_of_lookup.
  eapply elem_of_sublist; [| done]. by eapply list_elem_of_lookup_2.
Qed.

(** A sublist keeps the relative order of its elements. *)
Lemma sublist_lookup_order {A} (k l : list A) p q x y :
  k `sublist_of` l → p < q → k !! p = Some x → k !! q = Some y →
  ∃ p' q', p' < q' ∧ l !! p' = Some x ∧ l !! q' = Some y.
Proof.
  intros Hsub. revert p q.
  induction Hsub as [|z k l Hsub IH|z k l Hsub IH]; intros p q Hpq Hp Hq.
  - done.
  - destruct q as [|q]; [lia |]. destruct p as [|p]; simpl in *.
    + destruct (sublist_lookup k l q y Hsub Hq) as [q' Hq'].
      exists 0, (S q'). injection Hp as ->. split; [lia | done].
    + destruct (IH p q) as (p' & q' & Hlt & Hp' & Hq'); [lia | done | done |].
      exists (S p'), (S q'). split; [lia | done].
  - destruct (IH p q) as (p' & q' & Hlt & Hp' & Hq'); [done ..|].
    exists (S p'), (S q'). split; [lia | done].
Qed.

Lemma StronglySorted_sublist {A} (R : relation A) (k l : list A) :
  k `sublist_of` l → StronglySorted R l → StronglySorted R k.
Proof.
  induction 1 as [|z k l Hsub IH|z k l Hsub IH]; intros Hl; [done | |].
  - apply StronglySorted_inv in Hl as [Hl Hz]. constructor; [by apply IH |].
    apply Forall_forall. intros y Hy. rewrite Forall_forall in Hz.
    apply Hz. by eapply elem_of_sublist.
  - apply StronglySorted_inv in Hl as [Hl _]. by apply IH.
Qed.

(** Sortedness for a relation that is implied on the elements at hand. *)
Lemma StronglySorted_strengthen {A} (R R' : relation A) (P : A → Prop) l :
  (∀ a b, P a → P b → R a b → R' a b) →
  Forall P l → StronglySorted R l → StronglySorted R' l.
Proof.
  intros Himp HP. induction 1 as [|a l Hl IH Ha]; [constructor |].
  apply Forall_cons in HP as [Pa HP]. constructor; [by apply IH |].
  rewrite Forall_forall in Ha, HP. apply Forall_forall. intros b Hb.
  apply Himp; auto.
Qed.

Lemma mapM_result_Ok {A B} (f : A → result B) (g : A → B) (l : list A) :
  Forall (λ x, f x = Ok (g x)) l → mapM f l = Ok (g <$> l).
Proof.
  induction 1 as [|x l Hx _ IH]; [done |].
  simpl. rewrite Hx. simpl. by rewrite IH.
Qed.

Lemma mapM_result_inv {A B} (f : A → result B) (l : list A) (ys : list B) :
  mapM f l = Ok ys → Forall2 (λ x y, f x = Ok y) l ys.
Proof.
  revert ys. induction l as [|x l IH]; intros ys; simpl.
  - intros [= <-]. constructor.
  - destruct (f x) as [y|] eqn:Hy; [| done]. simpl.
    destruct (mapM f l) as [ys'|]; [| done]. simpl.
    intros [= <-]. constructor; auto.
Qed.

(** ** Filter and sort *)

Lemma as_float_rating_key r :
  numeric_rating r → as_float (cell "hotel_rating" r) = Ok (rating_key r).
Proof. unfold rating_key. by intros [f ->]. Qed.

Lemma as_float_inv r k :
  as_float (cell "hotel_rating" r) = Ok k →
  numeric_rating r ∧ rating_key r = k.
Proof.
  unfold numeric_rating, rating_key.
  destruct (cell "hotel_rating" r) as [|f|]; [done | | done].
  intros [= <-]. eauto.
Qed.

Lemma mapM_as_float_inv l keys :
  mapM (λ r, as_float (cell "hotel_rating" r)) l = Ok keys →
  Forall numeric_rating l ∧ keys = rating_key <$> l.
Proof.
  intros H%mapM_result_inv.
  induction H as [|r k l keys Hk _ [IH1 IH2]]; [done |].
  apply as_float_inv in Hk as [Hnum <-]. split; [by constructor |].
  simpl. by rewrite IH2.
Qed.

Lemma holds_py_ge r bound :
  holds (py_ge (cell "hotel_rating" r) bound) ↔
  ∃ f, cell "hotel_rating" r = VFloat f ∧ float_geb f bound = true.
Proof.
  unfold holds, py_ge. destruct (cell "hotel_rating" r) as [|f|].
  - split; [done | by intros (? & ? & _)].
  - split; [intros [= ?]; eauto | by intros (? & [= <-] & ->)].
  - split; [done | by intros (? & ? & _)].
Qed.

Section Select.
Context {R : Runtime}.

Lemma select_inv df city min_rating top_n out :
  select df city min_rating top_n = Ok out →
  "city_name" ∈ columns df ∧ "hotel_rating" ∈ columns df ∧
  Forall numeric_rating (city_rows df city) ∧
  out = {| columns := columns df;
           rows := take top_n (selection df city min_rating) |}.
Proof.
  unfold select, where_eq, sort_values_desc, where_ge, selection, city_rows.
  destruct (decide ("city_name" ∈ columns df)) as [Hcity|]; [| done].
  simpl. destruct (decide ("hotel_rating" ∈ columns df)) as [Hrating|];
    [| done].
  destruct (mapM _ (filter _ (rows df))) as [keys|] eqn:Hkeys; [| done].
  apply mapM_as_float_inv in Hkeys as [Hnum ->]. simpl.
  destruct (decide ("hotel_rating" ∈ columns df)); [| done].
  destruct (mapM _ _) as [keys'|]; [| done]. simpl.
  by intros [= <-].
Qed.

Lemma select_Ok df city min_rating top_n :
  "city_name" ∈ columns df → "hotel_rating" ∈ columns df →
  Forall numeric_rating (city_rows df city) →
  select df city min_rating top_n =
    Ok {| columns := columns df;
          rows := take top_n (selection df city min_rating) |}.
Proof.
  intros Hcity Hrating Hnum.
  unfold select, where_eq, sort_values_desc, where_ge, selection.
  rewrite decide_True by done. simpl.
  rewrite decide_True by done. fold (city_rows df city).
  rewrite (mapM_result_Ok _ rating_key)
    by (eapply Forall_impl; [exact Hnum | apply as_float_rating_key]).
  simpl. rewrite decide_True by done.
  rewrite (mapM_result_Ok _ rating_key); [done |].
  apply Forall_forall. intros r Hr%omap_lookup_subseteq.
  rewrite Forall_forall in Hnum. by apply as_float_rating_key, Hnum.
Qed.

(** Whatever the indexer, [select] returns rows of the frame it was given. *)
Lemma select_subseteq df city min_rating top_n out :
  select df city min_rating top_n = Ok out → rows out ⊆ rows df.
Proof.
  intros (_ & _ & _ & ->)%select_inv. simpl. unfold selection, city_rows.
  intros r Hr%subseteq_take%list_elem_of_filter.
  destruct Hr as [_ Hr%omap_lookup_subseteq].
  by apply list_elem_of_filter in Hr as [_ Hr].
Qed.

End Select.

Section SelectSorted.
Context {R : Runtime} {HR : RuntimeSpec R}.

(** The sorted city rows are the city rows, rearranged. *)
Lemma sorted_city_rows_Permutation df city :
  omap (city_rows df city !!.)
    (argsort_desc (rating_key <$> city_rows df city))
  ≡ₚ city_rows df city.
Proof.
  apply omap_lookup_Permutation.
  rewrite argsort_desc_perm. by rewrite length_fmap.
Qed.

Lemma sorted_city_rows_sorted df city :
  StronglySorted (λ a b, sorts_before (rating_key a) (rating_key b))
    (omap (city_rows df city !!.)
       (argsort_desc (rating_key <$> city_rows df city))).
Proof.
  pose proof (argsort_desc_sorted (rating_key <$> city_rows df city)) as Hs.
  rewrite omap_lookup_fmap in Hs.
  induction (omap _ _) as [|a l IH]; [constructor |].
  rewrite fmap_cons in Hs. apply StronglySorted_inv in Hs as [Hs Ha].
  constructor; [by apply IH |].
  by apply (Forall_fmap rating_key (sorts_before (rating_key a))) in Ha.
Qed.

Lemma selection_Permutation df city min_rating :
  selection df city min_rating ≡ₚ filter (matches city min_rating) (rows df).
Proof.
  unfold selection. rewrite sorted_city_rows_Permutation.
  unfold city_rows. rewrite list_filter_filter.
  erewrite list_filter_iff; [done |]. unfold matches. tauto.
Qed.

Lemma selection_sorted df city min_rating :
  StronglySorted rating_ge (selection df city min_rating).
Proof.
  unfold selection.
  apply (StronglySorted_strengthen
           (λ a b, sorts_before (rating_key a) (rating_key b)) rating_ge
           (λ r, holds (py_ge (cell "hotel_rating" r) min_rating))).
  - intros a b (x & Hx & _)%holds_py_ge (y & Hy & Hymin)%holds_py_ge.
    unfold sorts_before, rating_key, rating_ge. rewrite Hx, Hy.
    rewrite (float_geb_not_nan _ _ Hymin). simpl.
    intros Hxy%Is_true_true. by exists x, y.
  - apply Forall_forall. by intros r [Hr _]%list_elem_of_filter.
  - eapply StronglySorted_sublist; [apply sublist_filter |].
    apply sorted_city_rows_sorted.
Qed.

(** C1: on a frame that has the city and rating columns, the rating column
    numeric, [select] returns: min(top_n, number of rows in the city at or
    above the minimum rating) rows, each in the selected city, each rated at
    least the minimum, in descending order of rating; they are the first
    [top_n] of the matching rows put in descending order, so the cutoff is
    applied before the cut at [top_n]. *)
Theorem C1_select_top_n (df : DataFrame) (city : value)
    (min_rating : float64) (top_n : nat) :
  "city_name" ∈ columns df → "hotel_rating" ∈ columns df →
  Forall numeric_rating (rows df) →
  ∃ out,
    select df city min_rating top_n = Ok out ∧
    length (rows out) =
      top_n `min` length (filter (matches city min_rating) (rows df)) ∧
    Forall (λ r, py_eq (cell "city_name" r) city = true) (rows out) ∧
    Forall (λ r, ∃ f, cell "hotel_rating" r = VFloat f ∧
                      float_geb f min_rating = true) (rows out) ∧
    StronglySorted rating_ge (rows out) ∧
    ∃ best,
      best ≡ₚ filter (matches city min_rating) (rows df) ∧
      StronglySorted rating_ge best ∧
      rows out = take top_n best.
Proof.
  intros Hcity Hrating Hnum.
  eexists. split.
  { apply select_Ok; [done | done |].
    apply Forall_forall. intros r [_ Hr]%list_elem_of_filter.
    rewrite Forall_forall in Hnum. by apply Hnum. }
  simpl.
  pose proof (selection_Permutation df city min_rating) as Hperm.
  pose proof (selection_sorted df city min_rating) as Hsorted.
  assert (Hall : Forall (matches city min_rating)
                   (selection df city min_rating)).
  { apply Forall_forall. intros r Hr. rewrite Hperm in Hr.
    by apply list_elem_of_filter in Hr as [Hr _]. }
  split; [by rewrite length_take, Hperm |].
  split.
  { apply Forall_forall. intros r Hr%subseteq_take.
    rewrite Forall_forall in Hall. by apply Hall in Hr as [Hr _]. }
  split.
  { apply Forall_forall. intros r Hr%subseteq_take.
    rewrite Forall_forall in Hall. apply Hall in Hr as [_ Hr].
    by apply holds_py_ge. }
  split.
  { eapply StronglySorted_sublist; [apply sublist_take | done]. }
  by exists (selection df city min_rating).
Qed.

End SelectSorted.

(** ** The concrete runtimes meet the documented behaviour *)

Lemma sorts_before_total a b : sorts_before a b ∨ sorts_before b a.
Proof.
  unfold sorts_before, float_geb.
  destruct a as [| |x|], b as [| |y|]; simpl; auto.
  destruct (Qlt_le_dec x y) as [Hlt%Qlt_le_weak | Hle].
  - right. by apply Is_true_true, Qle_bool_iff.
  - left. by apply Is_true_true, Qle_bool_iff.
Qed.

Lemma sorts_before_trans a b c :
  sorts_before a b → sorts_before b c → sorts_before a c.
Proof.
  unfold sorts_before, float_geb.
  destruct a as [| |x|], b as [| |y|], c as [| |z|]; simpl; try done.
  intros Hyx%Is_true_true%Qle_bool_iff Hzy%Is_true_true%Qle_bool_iff.
  apply Is_true_true, Qle_bool_iff. by apply Qle_trans with y.
Qed.

Section ArgsortBy.
Context (tie : nat → nat → bool).
Hypothesis tie_total : ∀ i j, tie i j ∨ tie j i.
Hypothesis tie_trans : ∀ i j k, tie i j → tie j k → tie i k.

Local Instance pair_before_total : Total (pair_before tie).
Proof.
  intros [a i] [b j]. unfold pair_before. simpl.
  destruct (decide (sorts_before a b)) as [Hab|Hab],
           (decide (sorts_before b a)) as [Hba|Hba].
  - destruct (tie_total i j); [left | right]; done.
  - left. done.
  - right. done.
  - destruct (sorts_before_total a b); done.
Qed.

Local Instance pair_before_trans : Transitive (pair_before tie).
Proof.
  intros [a i] [b j] [c k]. unfold pair_before. simpl.
  intros [Hab Hij] [Hbc Hjk]. split.
  - by eapply sorts_before_trans.
  - intros Hca. eapply tie_trans.
    + apply Hij. by eapply sorts_before_trans.
    + apply Hjk. by eapply sorts_before_trans.
Qed.

Lemma argsort_by_Permutation keys :
  argsort_by tie keys ≡ₚ seq 0 (length keys).
Proof.
  unfold argsort_by. rewrite merge_sort_Permutation.
  rewrite snd_zip; [done |]. by rewrite length_seq.
Qed.

(** Every pair the merge sort handles is a key with its position. *)
Lemma sorted_pairs_lookup keys :
  Forall (λ p, keys !! p.2 = Some p.1)
    (merge_sort (pair_before tie) (zip keys (seq 0 (length keys)))).
Proof.
  apply Forall_forall. intros [k i] Hin.
  rewrite merge_sort_Permutation in Hin.
  apply list_elem_of_lookup in Hin as [j Hj].
  apply lookup_zip_Some in Hj as [Hk Hi].
  apply lookup_seq in Hi as [-> _]. done.
Qed.

Lemma omap_lookup_pairs (keys : list float64) (pairs : list (float64 * nat)) :
  Forall (λ p, keys !! p.2 = Some p.1) pairs →
  omap (keys !!.) (pairs.*2) = pairs.*1.
Proof.
  induction 1 as [|[k i] pairs Hk _ IH]; [done |].
  simpl in *. rewrite Hk. f_equal. exact IH.
Qed.

Lemma argsort_by_sorted keys :
  StronglySorted sorts_before (omap (keys !!.) (argsort_by tie keys)).
Proof.
  unfold argsort_by.
  rewrite omap_lookup_pairs by apply sorted_pairs_lookup.
  eapply StronglySorted_fmap; [| apply StronglySorted_merge_sort; apply _].
  by intros x y [Hxy _].
Qed.

Lemma runtime_of_spec table : RuntimeSpec (runtime_of table tie).
Proof.
  split; simpl.
  - apply argsort_by_Permutation.
  - apply argsort_by_sorted.
Qed.

End ArgsortBy.

Lemma StronglySorted_lookup {A} (R : relation A) l p q x y :
  StronglySorted R l → p < q → l !! p = Some x → l !! q = Some y → R x y.
Proof.
  intros Hs. revert p q.
  induction Hs as [|a l Hs IH Ha]; intros p q Hpq Hp Hq; [done |].
  destruct q as [|q]; [lia |]. destruct p as [|p]; simpl in *.
  - injection Hp as ->. rewrite Forall_forall in Ha.
    by eapply Ha, list_elem_of_lookup_2.
  - apply (IH p q); [lia | done | done].
Qed.

Lemma leb_total i j : (i <=? j) ∨ (j <=? i).
Proof.
  destruct (decide (i ≤ j)); [left | right];
    apply Is_true_true, Nat.leb_le; lia.
Qed.

Lemma leb_trans i j k : (i <=? j) → (j <=? k) → (i <=? k).
Proof.
  intros H1%Is_true_true%Nat.leb_le H2%Is_true_true%Nat.leb_le.
  apply Is_true_true, Nat.leb_le. lia.
Qed.

Lemma stable_runtime_spec : RuntimeSpec stable_runtime.
Proof.
  apply runtime_of_spec; [apply leb_total | apply leb_trans].
Qed.

Lemma reversing_runtime_spec : RuntimeSpec reversing_runtime.
Proof.
  apply runtime_of_spec.
  - intros i j. destruct (leb_total i j); auto.
  - intros i j k H1 H2. by apply (leb_trans k j i).
Qed.

(** Breaking ties by position makes the argsort stable. *)
Lemma stable_runtime_stable : stable_argsort stable_runtime.
Proof.
  intros keys p q i j a b Hpq Hp Hq Ha Hb Hba. simpl in Hp, Hq.
  unfold argsort_by in Hp, Hq.
  set (pairs := merge_sort _ _) in Hp, Hq.
  assert (Hpairs : Forall (λ x, keys !! x.2 = Some x.1) pairs)
    by apply sorted_pairs_lookup.
  assert (Hsorted : StronglySorted (pair_before (λ i j, i <=? j)) pairs).
  { apply StronglySorted_merge_sort;
      [apply pair_before_trans, leb_trans | apply pair_before_total, leb_total]. }
  rewrite list_lookup_fmap in Hp, Hq.
  destruct (pairs !! p) as [[a' i']|] eqn:Hp'; [| done].
  destruct (pairs !! q) as [[b' j']|] eqn:Hq'; [| done].
  simpl in Hp, Hq. injection Hp as ->. injection Hq as ->.
  rewrite Forall_forall in Hpairs.
  pose proof (Hpairs _ (list_elem_of_lookup_2 _ _ _ Hp')) as Ha'.
  pose proof (Hpairs _ (list_elem_of_lookup_2 _ _ _ Hq')) as Hb'.
  simpl in Ha', Hb'. rewrite Ha in Ha'. rewrite Hb in Hb'.
  injection Ha' as <-. injection Hb' as <-.
  destruct (StronglySorted_lookup _ _ p q _ _ Hsorted Hpq Hp' Hq')
    as [_ Hle]. simpl in Hle.
  apply Hle, Is_true_true, Nat.leb_le in Hba.
  assert (i ≠ j); [| lia].
  intros ->.
  assert (Hnodup : NoDup (pairs.*2)).
  { unfold pairs. rewrite merge_sort_Permutation.
    rewrite snd_zip by (by rewrite length_seq). apply NoDup_seq. }
  assert (p = q); [| lia].
  apply (NoDup_lookup _ _ _ j Hnodup); rewrite list_lookup_fmap.
  - by rewrite Hp'.
  - by rewrite Hq'.
Qed.

(** ** The sample, loaded *)

Lemma loaded_sample_Ok :
  load_data (R := stable_runtime) default_csv_path = Ok loaded_sample.
Proof. vm_compute. reflexivity. Qed.

Lemma loaded_sample_index : (rows loaded_sample).*1 = [0; 1; 3; 5].
Proof. vm_compute. reflexivity. Qed.

Lemma valid_record_numeric r : valid_record r.2 → numeric_rating r.
Proof.
  intros [(f & Hf & _) _]. exists f. unfold cell. by rewrite Hf.
Qed.

Lemma loaded_sample_numeric : Forall numeric_rating (rows loaded_sample).
Proof.
  eapply Forall_impl;
    [apply (load_data_valid _ _ loaded_sample_Ok) | apply valid_record_numeric].
Qed.

Lemma C1_select_top_n_witness :
  ∃ out,
    select (R := stable_runtime) loaded_sample (txt "Paris") (Fin 8) 2 =
      Ok out ∧
    (rows out).*1 = [0; 1] ∧
    StronglySorted rating_ge (rows out).
Proof.
  destruct (C1_select_top_n (R := stable_runtime) (HR := stable_runtime_spec)
              loaded_sample (txt "Paris") (Fin 8) 2)
    as (out & Hsel & _ & _ & _ & Hsorted & _).
  - by_evaluation.
  - by_evaluation.
  - apply loaded_sample_numeric.
  - exists out. split; [done |]. split; [| done].
    vm_compute in Hsel. injection Hsel as <-. reflexivity.
Defined.

(** ** Order among equal ratings *)

Lemma rating_ge_sorts_before x y :
  rating_ge y x → sorts_before (rating_key y) (rating_key x).
Proof.
  intros (b & a & Hb & Ha & Hge). unfold sorts_before, rating_key.
  rewrite Hb, Ha, Hge. by rewrite orb_true_r.
Qed.

Section Stability.
Context {R : Runtime} {HR : RuntimeSpec R}.


End Stability.



(** ** The page, case by case *)

Section Page.
Context {R : Runtime}.

(** The run of the script, by the outcome of each of its steps. *)
Lemma run_cases hotels_csv ui :
  run hotels_csv ui =
    match load_data (CSV_PATH hotels_csv) with
    | Raise e => ([], Uncaught e)
    | Ok df =>
        match cities_of df with
        | Raise e =>
            ([Markdown page_title true; SidebarMarkdown (lit "### Filters")],
             Uncaught e)
        | Ok cities =>
            let selected_city := default VNone (cities !! chosen_city ui) in
            match select df selected_city (min_rating ui) (top_n ui) with
            | Raise e => (page_with_widgets cities, Uncaught e)
            | Ok city_df =>
                if empty city_df then
                  (page_with_widgets cities ++
                     [Warning (empty_notice selected_city)],
                   Stopped)
                else
                  match city_title (length (rows city_df)) selected_city with
                  | Raise e => (page_with_widgets cities, Uncaught e)
                  | Ok title =>
                      match build_map city_df with
                      | Raise e =>
                          (page_with_widgets cities ++ [Markdown title true],
                           Uncaught e)
                      | Ok m =>
                          (page_with_widgets cities ++
                             [Markdown title true; Folium m 1000 600;
                              Markdown legend false],
                           Continue ())
                      end
                  end
            end
        end
    end.
Proof.
  unfold run, app, selectbox, lift, emit, st_stop, page_with_widgets.
  unfold mbind, mret, script_bind, script_ret.
  destruct (load_data _) as [df|]; [| done].
  destruct (cities_of df) as [cities|]; [| done]. simpl.
  destruct (select _ _ _ _) as [city_df|]; [| done].
  destruct (empty city_df); [done |].
  destruct (city_title _ _) as [title|]; [| done].
  destruct (build_map city_df) as [m|]; done.
Qed.

End Page.

(** ** Rendering loaded rows *)

Lemma mapM_result_Forall {A B} (f : A → result B) (P : A → B → Prop) l :
  Forall (λ x, ∃ y, f x = Ok y ∧ P x y) l →
  ∃ ys, mapM f l = Ok ys ∧ Forall2 P l ys.
Proof.
  induction 1 as [|x l (y & Hy & HP) _ (ys & Hys & IH)].
  - by exists [].
  - exists (y :: ys). simpl. rewrite Hy. simpl. rewrite Hys.
    split; [done | by constructor].
Qed.

Section RenderLoaded.
Context {R : Runtime}.

(** The colour and the rating text of a record that passed the loader. *)
Lemma valid_record_rated row :
  valid_record row →
  ∃ f c,
    row !! "hotel_rating" = Some (VFloat f) ∧ is_nan f = false ∧
    rating_of row = VFloat f ∧
    color_by_rating (VFloat f) = Ok c ∧
    c ∈ rated_colors ∧ c ≠ lit "gray" ∧
    rating_txt (rating_of row) = Ok (format_1f f) ∧
    format_1f f ≠ lit "N/A".
Proof.
  intros ((f & Hf & Hnan) & _).
  destruct (color_by_rating_number f Hnan) as (c & Hc & Hin).
  destruct (rating_txt_number f Hnan) as [Htxt Hna].
  assert (Hrating : rating_of row = VFloat f)
    by (unfold rating_of, row_get; by rewrite Hf).
  exists f, c. rewrite Hrating. repeat split; try done.
  intros ->. revert Hin.
  change (lit "gray" ∉ [lit "green"; lit "orange"; lit "red"]).
  by_evaluation.
Qed.

(** Whenever the loop body succeeds on such a record, the marker is rated. *)
Lemma render_row_rated row m :
  valid_record row → render_row row = Ok m → renders_rated row m.
Proof.
  intros (f & c & Hf & Hnan & Hrating & Hc & Hin & Hgray & Htxt & Hna)
    %valid_record_rated
    (txt & lat & lon & r & c' & Htxt' & _ & _ & Hr & Hc' & _ & ->)
    %render_row_inv.
  rewrite Hf in Hr. injection Hr as <-.
  rewrite Htxt in Htxt'. injection Htxt' as <-.
  rewrite Hc in Hc'. injection Hc' as <-.
  by exists f.
Qed.

Lemma validate_coord_number f :
  is_nan f = false → validate_coord (VFloat f) = Ok f.
Proof. unfold validate_coord. by intros ->. Qed.

(** The loop body succeeds on a record with numeric coordinates. *)
Lemma render_row_valid row :
  valid_record row → numeric_coordinates row → ∃ m, render_row row = Ok m.
Proof.
  intros Hvalid (a & b & Ha & Hb).
  pose proof Hvalid as (_ & (lat & Hlat & Hlatna) & (lon & Hlon & Hlonna)).
  rewrite Ha in Hlat. injection Hlat as <-.
  rewrite Hb in Hlon. injection Hlon as <-.
  apply valid_record_rated in Hvalid
    as (f & c & Hf & _ & Hrating & Hc & _ & _ & Htxt & _).
  assert (Hloc : validate_location (VFloat a) (VFloat b) = Ok (a, b)).
  { unfold validate_location. by rewrite !validate_coord_number. }
  eexists. unfold render_row, row_getitem.
  fold (rating_of row). rewrite Htxt, Ha, Hb, Hf.
  cbn [mbind result_bind]. rewrite Hc. cbn [mbind result_bind].
  rewrite Hloc. reflexivity.
Qed.

Lemma build_map_inv df m :
  build_map df = Ok m →
  Forall2 (λ r k, render_row r.2 = Ok k) (rows df) (markers m) ∧
  length (bounds m) = length (rows df).
Proof.
  unfold build_map. destruct (lat_lon_list df) as [b|] eqn:Hb; [| done].
  simpl. destruct (mapM _ _) as [ms|] eqn:Hms; [| done]. simpl.
  intros [= <-]. simpl. split; [by apply mapM_result_inv |].
  unfold lat_lon_list in Hb. destruct (filter _ _); [| done].
  injection Hb as <-. by rewrite length_fmap.
Qed.

(** Every marker of a map built from loaded records is rated. *)
Lemma build_map_rated df m :
  Forall (λ r, valid_record r.2) (rows df) →
  build_map df = Ok m →
  Forall2 (λ r k, renders_rated r.2 k) (rows df) (markers m).
Proof.
  intros Hvalid [Hall _]%build_map_inv.
  induction Hall as [|r k l ks Hk _ IH]; [constructor |].
  apply Forall_cons in Hvalid as [Hr Hvalid].
  constructor; [by apply render_row_rated | by apply IH].
Qed.

(** The map is built when the coordinates are numbers. *)
Lemma build_map_valid df :
  "hotel_latitude" ∈ columns df → "hotel_longitude" ∈ columns df →
  Forall (λ r, valid_record r.2) (rows df) →
  Forall (λ r, numeric_coordinates r.2) (rows df) →
  ∃ m, build_map df = Ok m.
Proof.
  intros Hlat Hlon Hvalid Hnum.
  destruct (mapM_result_Forall (λ r, render_row r.2) (λ _ _, True) (rows df))
    as (ms & Hms & _).
  { apply Forall_forall. intros r Hr. rewrite Forall_forall in Hvalid, Hnum.
    destruct (render_row_valid r.2) as [m Hm]; eauto. }
  eexists. unfold build_map, lat_lon_list.
  rewrite !filter_cons_False by (intros Hno; by apply Hno).
  rewrite filter_nil. simpl. rewrite Hms. simpl. reflexivity.
Qed.

(** C10: a row drawn from what [load_data] returned, whatever the selection,
    has a numeric rating: [color_by_rating] returns green, orange or red on
    it and never gray, the rating text of the popup is the formatted rating
    and never ["N/A"], and the marker made of the row carries that colour and
    that text.  So every marker of the map is green, orange or red; and the
    map is indeed built when the coordinates are numbers. *)
Theorem C10_loaded_rows_never_gray (path : str) (df : DataFrame)
    (city : value) (min_rating : float64) (top_n : nat) (out : DataFrame) :
  load_data path = Ok df →
  select df city min_rating top_n = Ok out →
  Forall (λ r, ∃ f c,
            r.2 !! "hotel_rating" = Some (VFloat f) ∧ is_nan f = false ∧
            color_by_rating (VFloat f) = Ok c ∧
            c ∈ rated_colors ∧ c ≠ lit "gray" ∧
            rating_txt (rating_of r.2) = Ok (format_1f f) ∧
            format_1f f ≠ lit "N/A" ∧
            ∀ m, render_row r.2 = Ok m → renders_rated r.2 m)
    (rows out) ∧
  (∀ m, build_map out = Ok m →
        Forall (λ k, icon_color k ∈ rated_colors ∧ icon_color k ≠ lit "gray")
          (markers m)) ∧
  (Forall (λ r, numeric_coordinates r.2) (rows out) →
   ∃ m, build_map out = Ok m).
Proof.
  intros Hload Hsel.
  assert (Hvalid : Forall (λ r, valid_record r.2) (rows out)).
  { apply Forall_forall. intros r Hr%(select_subseteq _ _ _ _ _ Hsel).
    pose proof (load_data_valid _ _ Hload) as Hall.
    rewrite Forall_forall in Hall. by apply Hall. }
  split; [| split].
  - eapply Forall_impl; [exact Hvalid |]. intros r Hr.
    destruct (valid_record_rated _ Hr)
      as (f & c & Hf & Hnan & _ & Hc & Hin & Hgray & Htxt & Hna).
    exists f, c. repeat split; try done.
    intros m Hm. by apply render_row_rated.
  - intros m Hm. pose proof (build_map_rated _ _ Hvalid Hm) as Hall.
    apply Forall_forall. intros k Hk.
    apply list_elem_of_lookup in Hk as [i Hi].
    destruct (Forall2_lookup_r _ _ _ _ _ Hall Hi)
      as (r & _ & (f & _ & _ & _ & _ & _ & _ & Hin & Hgray)).
    done.
  - intros Hnum.
    pose proof (load_data_columns _ _ Hload) as Hcols.
    rewrite !Forall_cons in Hcols. destruct Hcols as (_ & Hlat & Hlon & _).
    apply select_inv in Hsel as (_ & _ & _ & Hout).
    apply build_map_valid; try done; by rewrite Hout.
Qed.

End RenderLoaded.

Lemma C10_loaded_rows_never_gray_witness :
  ∃ out m,
    select (R := stable_runtime) loaded_sample (txt "Paris") (Fin 8) 5 =
      Ok out ∧
    build_map (R := stable_runtime) out = Ok m ∧
    icon_color <$> markers m = [lit "green"; lit "orange"; lit "orange"] ∧
    Forall (λ k, icon_color k ∈ rated_colors ∧ icon_color k ≠ lit "gray")
      (markers m).
Proof.
  eexists _, _. split; [vm_compute; reflexivity |].
  split; [vm_compute; reflexivity |]. split; [reflexivity |].
  eapply (C10_loaded_rows_never_gray (R := stable_runtime) default_csv_path
            loaded_sample (txt "Paris") (Fin 8) 5 _ loaded_sample_Ok).
  - vm_compute. reflexivity.
  - vm_compute. reflexivity.
Defined.

(** ** Empty selections *)

Lemma empty_spec df : empty df = true ↔ rows df = [].
Proof. unfold empty. apply bool_decide_eq_true. Qed.

Section EmptyState.
Context {R : Runtime}.

(** C8: when [select] returns no row, the run is halted by [st.stop()]
    rather than by an exception; the page then ends with the warning that no
    hotel meets the criteria and holds no map.  In any run at all, a map on
    the page has at least one marker and a non-empty bounding list: the map
    builder never runs on an empty selection. *)
Theorem C8_empty_selection_halts (hotels_csv : option (list N))
    (ui : Interaction) :
  (∀ df cities city_df,
     load_data (CSV_PATH hotels_csv) = Ok df →
     cities_of df = Ok cities →
     select df (default VNone (cities !! chosen_city ui)) (min_rating ui)
       (top_n ui) = Ok city_df →
     rows city_df = [] →
     (run hotels_csv ui).2 = Stopped ∧
     (run hotels_csv ui).1 =
       page_with_widgets cities ++
       [Warning (empty_notice (default VNone (cities !! chosen_city ui)))] ∧
     Forall (λ e, ¬ is_map e) (run hotels_csv ui).1) ∧
  (∀ m width height,
     Folium m width height ∈ (run hotels_csv ui).1 →
     markers m ≠ [] ∧ bounds m ≠ []).
Proof.
  split.
  - intros df cities city_df Hload Hcities Hsel Hempty%empty_spec.
    rewrite run_cases, Hload, Hcities. simpl. rewrite Hsel, Hempty. simpl.
    split; [done |]. split; [done |].
    repeat (apply Forall_cons_2; [by intros [] |]). apply Forall_nil_2.
  - intros m width height. rewrite run_cases.
    destruct (load_data _) as [df|]; [| by intros ?%elem_of_nil].
    destruct (cities_of df) as [cities|];
      [| intros Hin; repeat (apply elem_of_cons in Hin as [[=] | Hin]);
         by apply elem_of_nil in Hin].
    simpl. destruct (select _ _ _ _) as [city_df|];
      [| intros Hin; repeat (apply elem_of_cons in Hin as [[=] | Hin]);
         by apply elem_of_nil in Hin].
    destruct (empty city_df) eqn:Hempty;
      [intros Hin; repeat (apply elem_of_cons in Hin as [[=] | Hin]);
       by apply elem_of_nil in Hin |].
    destruct (city_title _ _) as [title|];
      [| intros Hin; repeat (apply elem_of_cons in Hin as [[=] | Hin]);
         by apply elem_of_nil in Hin].
    destruct (build_map city_df) as [m'|] eqn:Hm;
      [| intros Hin; repeat (apply elem_of_cons in Hin as [[=] | Hin]);
         by apply elem_of_nil in Hin].
    intros Hin.
    assert (m = m') as ->.
    { repeat (apply elem_of_cons in Hin as [Heq | Hin];
              [by (discriminate Heq || injection Heq) |]).
      by apply elem_of_nil in Hin. }
    apply build_map_inv in Hm as [Hall Hlen].
    assert (rows city_df ≠ []) as Hrows.
    { intros Hnil%empty_spec. congruence. }
    split.
    + intros Hnil. rewrite Hnil in Hall. by apply Forall2_nil_inv_r in Hall.
    + intros Hnil. rewrite Hnil in Hlen. by destruct (rows city_df).
Qed.

End EmptyState.

Lemma C8_empty_selection_halts_witness :
  let ui := {| chosen_city := 0; min_rating := Fin 8; top_n := 5 |} in
  (run (R := stable_runtime) None ui).2 = Stopped ∧
  last (run (R := stable_runtime) None ui).1 =
    Some (Warning (lit "No hotels meeting the criteria in **Lyon**.")).
Proof.
  intros ui.
  destruct (C8_empty_selection_halts (R := stable_runtime) None ui)
    as [H _].
  destruct (H loaded_sample [txt "Lyon"; txt "Paris"]
              {| columns := hotel_columns; rows := [] |})
    as (Hstop & Hpage & _).
  - exact loaded_sample_Ok.
  - vm_compute. reflexivity.
  - vm_compute. reflexivity.
  - reflexivity.
  - split; [exact Hstop |]. rewrite Hpage. reflexivity.
Defined.

(** ** The legend *)

Lemma legend_entries_eq :
  legend_entries =
    [[c_green_circle] ++ lit " " ++ [c_ge_sign] ++ lit " 9.0";
     [c_orange_circle] ++ lit " 8.0" ++ [c_en_dash] ++ lit "8.9";
     [c_red_circle] ++ lit " < 8.0"].
Proof. vm_compute. reflexivity. Qed.

Lemma legend_describes_spec c :
  legend_describes c ↔ c ∈ [green; orange; red].
Proof.
  unfold legend_describes. rewrite legend_entries_eq. split.
  - intros [(entry & sym & Hin & Hsym & Hcat) | Hword].
    + repeat (apply elem_of_cons in Hin as [-> | Hin];
              [injection Hsym as <-; vm_compute in Hcat;
               injection Hcat as <-; by_evaluation_cat |]).
      by apply elem_of_nil in Hin.
    + destruct c; apply containsb_spec in Hword; vm_compute in Hword;
        discriminate Hword.
  - intros Hc. destruct c.
    + left. eexists _, _. rewrite !elem_of_cons.
      split; [left; reflexivity |]. split; reflexivity.
    + left. eexists _, _. rewrite !elem_of_cons.
      split; [right; left; reflexivity |]. split; reflexivity.
    + left. eexists _, _. rewrite !elem_of_cons.
      split; [right; right; left; reflexivity |]. split; reflexivity.
    + repeat (apply elem_of_cons in Hc as [[=] | Hc]).
      by apply elem_of_nil in Hc.
Qed.

Section Legend.
Context {R : Runtime}.

(** C9 (as the code has it): the legend is on the page exactly when the run
    completes, and is then the last thing on it; it has three entries, for
    green (9.0 and above), orange (8.0 to 8.9) and red (below 8.0), and
    describes these three categories and no other. *)
Theorem C9_legend_three_categories (hotels_csv : option (list N))
    (ui : Interaction) :
  (Markdown legend false ∈ (run hotels_csv ui).1 ↔
   (run hotels_csv ui).2 = Continue ()) ∧
  ((run hotels_csv ui).2 = Continue () →
   last (run hotels_csv ui).1 = Some (Markdown legend false)) ∧
  legend_entries =
    [[c_green_circle] ++ lit " " ++ [c_ge_sign] ++ lit " 9.0";
     [c_orange_circle] ++ lit " 8.0" ++ [c_en_dash] ++ lit "8.9";
     [c_red_circle] ++ lit " < 8.0"] ∧
  (∀ c, legend_describes c ↔ c ∈ [green; orange; red]).
Proof.
  split; [| split; [| split; [apply legend_entries_eq |
                              apply legend_describes_spec]]].
  - rewrite run_cases.
    destruct (load_data _) as [df|]; [| by split; [intros ?%elem_of_nil |]].
    destruct (cities_of df) as [cities|]; [| split; [| done]; no_legend].
    simpl. destruct (select _ _ _ _) as [city_df|];
      [| split; [| done]; no_legend].
    destruct (empty city_df); [split; [| done]; no_legend |].
    destruct (city_title _ _) as [title|]; [| split; [| done]; no_legend].
    destruct (build_map city_df) as [m|]; [| split; [| done]; no_legend].
    simpl. split; [done |]. intros _. rewrite !elem_of_cons. auto 10.
  - rewrite run_cases.
    destruct (load_data _) as [df|]; [| done].
    destruct (cities_of df) as [cities|]; [| done]. simpl.
    destruct (select _ _ _ _) as [city_df|]; [| done].
    destruct (empty city_df); [done |].
    destruct (city_title _ _) as [title|]; [| done].
    destruct (build_map city_df) as [m|]; done.
Qed.

End Legend.

Lemma C9_legend_three_categories_witness :
  let ui := {| chosen_city := 1; min_rating := Fin 8; top_n := 5 |} in
  last (run (R := stable_runtime) None ui).1 = Some (Markdown legend false).
Proof.
  intros ui.
  apply (C9_legend_three_categories (R := stable_runtime) None ui).
  vm_compute. reflexivity.
Defined.

(** The claim C9 as written fails: nothing in the legend describes the gray
    category. *)
Lemma C9_counterexample : ¬ (∀ c : MarkerCategory, legend_describes c).
Proof.
  intros H. specialize (H gray). apply legend_describes_spec in H.
  repeat (apply elem_of_cons in H as [[=] | H]). by apply elem_of_nil in H.
Qed.

(** ** Optional fields *)

Section OptionalFields.
Context {R : Runtime}.

(** [row.get] falls back on its default only when the row has no such
    field, that is, when the file has no such column. *)
Lemma defaults_when_column_absent row :
  row !! "hotel_name" = None → row !! "hotel_url" = None →
  row !! "hotel_description" = None →
  py_str (name_of row) = lit "Unknown Hotel" ∧
  py_str (url_of row) = lit "#" ∧
  py_str (desc_of row) = [].
Proof.
  unfold name_of, url_of, desc_of, row_get. by intros -> -> ->.
Qed.

(** A blank cell of a column the file has reaches the popup as ["nan"]. *)
Lemma blank_cell_renders_nan row :
  row !! "hotel_name" = Some blank → row !! "hotel_url" = Some blank →
  row !! "hotel_description" = Some blank →
  html_escape (py_str (name_of row)) = lit "nan" ∧
  html_escape (py_str (url_of row)) = lit "nan" ∧
  safe_desc (desc_of row) = lit "nan".
Proof.
  unfold name_of, url_of, desc_of, row_get, safe_desc. by intros -> -> ->.
Qed.

(** Rendering a record that passed the loader, with numeric coordinates,
    never fails, whatever its optional fields hold. *)
Lemma render_row_total row :
  valid_record row → numeric_coordinates row → ∃ m, render_row row = Ok m.
Proof. apply render_row_valid. Qed.

End OptionalFields.

(** C7 (the code at the failing input): the record labelled 3 of the sample
    file passes the loader with a blank name, URL and description; rendering
    it succeeds, but the popup shows ["nan"] for the name and the
    description and links to ["nan"], where the claim promises
    ["Unknown Hotel"], an empty description and the placeholder ["#"]. *)
Theorem C7_blank_optional_fields_render_nan :
  ∃ row m,
    is_blank_record row ∧
    valid_record row ∧
    render_row (R := stable_runtime) row = Ok m ∧
    popup m = popup_html (lit "nan") (lit "8.2") (lit "nan") (lit "nan") ∧
    popup m ≠
      popup_html (html_escape (lit "Unknown Hotel")) (lit "8.2")
        (html_escape []) (html_escape (lit "#")).
Proof.
  eexists _, _. split; [| split; [| split; [| split]]].
  - unfold is_blank_record. split; [vm_compute; reflexivity |].
    split; [| split]; vm_compute; reflexivity.
  - pose proof (load_data_valid (R := stable_runtime) _ _ loaded_sample_Ok)
      as Hall.
    rewrite Forall_forall in Hall.
    apply (Hall (3, _)). eapply list_elem_of_lookup_2.
    instantiate (1 := 2). vm_compute. reflexivity.
  - vm_compute. reflexivity.
  - vm_compute. reflexivity.
  - vm_compute. discriminate.
Qed.

(** * Further properties of the script *)

(** ** More on lists *)

Lemma filter_Forall_id {A} (P : A → Prop) `{∀ x, Decision (P x)} (l : list A) :
  Forall P l → filter P l = l.
Proof.
  induction 1 as [|x l Hx _ IH]; [done |].
  by rewrite filter_cons_True, IH.
Qed.

Lemma filter_eq_nil {A} (P : A → Prop) `{∀ x, Decision (P x)} (l : list A) :
  filter P l = [] ↔ Forall (λ x, ¬ P x) l.
Proof.
  split.
  - intros Hnil. apply Forall_forall. intros x Hx HP.
    by eapply filter_nil_not_elem_of.
  - induction 1 as [|x l Hx _ IH]; [done |].
    by rewrite filter_cons_False.
Qed.

Lemma take_eq_nil {A} (n : nat) (l : list A) :
  take n l = [] ↔ n = 0 ∨ l = [].
Proof.
  destruct n as [|n], l as [|x l]; simpl; split; try done; auto.
  - intros [? | ?]; done.
Qed.

(** ** The loader on clean and on incomplete files *)

Section LoaderExtra.
Context {R : Runtime}.

Lemma coerced_valid r : valid_record r.2 → coerced r = r.
Proof.
  intros [(f & Hf & _) _]. unfold coerced, cell. rewrite Hf. simpl.
  rewrite insert_id by done. by destruct r.
Qed.

Lemma load_data_clean path raw :
  read_csv path = Ok raw → clean_frame raw → load_data path = Ok raw.
Proof.
  intros Hraw [Hcols Hvalid]. unfold load_data. rewrite Hraw. simpl.
  assert (Hrows1 : filter (λ r, Forall (λ c, isna (cell c r) = false)
                                   required_columns) (rows raw) = rows raw).
  { apply filter_Forall_id. eapply Forall_impl; [exact Hvalid |].
    intros r ((f & Hf & Hnan) & (lat & Hlat & Hlatna) & (lon & Hlon & Hlonna)).
    unfold required_columns, cell.
    repeat apply Forall_cons_2; [| | | apply Forall_nil_2].
    - by rewrite Hf.
    - by rewrite Hlat.
    - by rewrite Hlon. }
  unfold dropna at 2. fold required_columns.
  rewrite (proj2 (filter_eq_nil _ required_columns))
    by (eapply Forall_impl; [exact Hcols | by intros c Hc Hno]).
  simpl. unfold dropna, boolean_index, map_column. simpl.
  rewrite filter_cons_False, filter_nil
    by (intros Hno; unfold required_columns in Hcols;
        apply Forall_cons in Hcols as [Hc _]; by apply Hno).
  simpl. rewrite Hrows1. f_equal.
  assert (Hmap : (λ r : nat * gmap string value,
                    (r.1, <["hotel_rating" :=
                              VFloat (to_numeric (cell "hotel_rating" r))]>
                            r.2)) <$> rows raw = rows raw).
  { rewrite <- (list_fmap_id (rows raw)) at 2.
    apply Forall_fmap_ext_1. eapply Forall_impl; [exact Hvalid |].
    intros r Hr. apply (coerced_valid r Hr). }
  rewrite Hmap.
  rewrite filter_Forall_id; [by destruct raw |].
  eapply Forall_impl; [exact Hvalid |].
  intros r ((f & Hf & Hnan) & _). apply Forall_cons_2; [| apply Forall_nil_2].
  unfold cell. by rewrite Hf.
Qed.


(** X6: when the file lacks one of the three required columns, [load_data]
    raises a [KeyError] for a missing one, and the run dies of it before
    anything is put on the page. *)
Theorem missing_column_stops_before_page (hotels_csv : option (list N))
    (ui : Interaction) (raw : DataFrame) (c : string) :
  read_csv (CSV_PATH hotels_csv) = Ok raw →
  c ∈ required_columns → (c ∉ columns raw) →
  ∃ c', c' ∈ required_columns ∧ (c' ∉ columns raw) ∧
        load_data (CSV_PATH hotels_csv) = Raise (KeyError c') ∧
        run hotels_csv ui = ([], Uncaught (KeyError c')).
Proof.
  intros Hraw Hc Hno.
  assert (Hload : ∃ c', c' ∈ required_columns ∧ (c' ∉ columns raw) ∧
                        load_data (CSV_PATH hotels_csv) = Raise (KeyError c')).
  { unfold load_data. rewrite Hraw. simpl. unfold dropna at 2.
    fold required_columns.
    destruct (filter (λ c, c ∉ columns raw) required_columns)
      as [|c' l] eqn:Hmissing.
    - exfalso. exact (filter_nil_not_elem_of _ _ c Hmissing Hno Hc).
    - assert (c' ∈ filter (λ c, c ∉ columns raw) required_columns) as Hin
        by (rewrite Hmissing; apply elem_of_cons; by left).
      apply list_elem_of_filter in Hin as [Hno' Hin]. by exists c'. }
  destruct Hload as (c' & Hin & Hno' & Hload). exists c'.
  repeat split; try done. by rewrite run_cases, Hload.
Qed.

End LoaderExtra.


Lemma missing_column_stops_before_page_witness :
  ∃ c, run (R := no_latitude_runtime) None
         {| chosen_city := 0; min_rating := Fin 8; top_n := 20 |} =
       ([], Uncaught (KeyError c)).
Proof.
  destruct (missing_column_stops_before_page (R := no_latitude_runtime) None
              {| chosen_city := 0; min_rating := Fin 8; top_n := 20 |}
              no_latitude_table "hotel_latitude")
    as (c & _ & _ & _ & Hrun).
  - reflexivity.
  - by_evaluation.
  - by_evaluation.
  - by exists c.
Defined.

(** ** More on the selection *)

Section SelectExtra.
Context {R : Runtime}.

Lemma select_no_city_column df city min_rating top_n :
  "city_name" ∉ columns df →
  select df city min_rating top_n = Raise (KeyError "city_name").
Proof. intros Hno. unfold select, where_eq. by rewrite decide_False. Qed.

(** X9: on a frame that [load_data] returned, [select] raises nothing but a
    [KeyError] for a missing [city_name] column: with that column it returns
    a frame for every city, minimum rating and count. *)
Theorem select_on_loaded_frame (path : str) (df : DataFrame) (city : value)
    (min_rating : float64) (top_n : nat) :
  load_data path = Ok df →
  ("city_name" ∈ columns df →
   ∃ out, select df city min_rating top_n = Ok out ∧
          columns out = columns df ∧ rows out ⊆ rows df) ∧
  ("city_name" ∉ columns df →
   select df city min_rating top_n = Raise (KeyError "city_name")).
Proof.
  intros Hload. split; [| apply select_no_city_column].
  intros Hcity.
  pose proof (load_data_columns _ _ Hload) as Hcols.
  rewrite Forall_cons in Hcols. destruct Hcols as [Hrating _].
  assert (Hsel : select df city min_rating top_n =
                   Ok {| columns := columns df;
                         rows := take top_n (selection df city min_rating) |}).
  { apply select_Ok; [done | done |].
    apply Forall_forall. intros r [_ Hr]%list_elem_of_filter.
    pose proof (load_data_valid _ _ Hload) as Hvalid.
    rewrite Forall_forall in Hvalid. by apply valid_record_numeric, Hvalid. }
  eexists. split; [exact Hsel |]. split; [done |].
  by eapply select_subseteq.
Qed.

(** X8: the hotels shown for a smaller count are the first ones of those
    shown for a larger count: moving the count slider only extends or cuts
    the list, it never changes which hotels come first. *)
Theorem select_smaller_count_is_prefix (df : DataFrame) (city : value)
    (min_rating : float64) (n n' : nat) (out out' : DataFrame) :
  n ≤ n' →
  select df city min_rating n = Ok out →
  select df city min_rating n' = Ok out' →
  rows out = take n (rows out').
Proof.
  intros Hle (_ & _ & _ & ->)%select_inv (_ & _ & _ & ->)%select_inv.
  simpl. rewrite take_take. f_equal. lia.
Qed.

End SelectExtra.

Section SelectExtraSorted.
Context {R : Runtime} {HR : RuntimeSpec R}.

(** X4: the selection is empty exactly when the count is zero or no hotel of
    the selected city reaches the minimum rating; otherwise at least one
    hotel is shown. *)
Theorem select_empty_iff_nothing_matches (df : DataFrame) (city : value)
    (min_rating : float64) (top_n : nat) (out : DataFrame) :
  select df city min_rating top_n = Ok out →
  (rows out = [] ↔
   top_n = 0 ∨ Forall (λ r, ¬ matches city min_rating r) (rows df)).
Proof.
  intros (_ & _ & _ & ->)%select_inv. simpl.
  rewrite take_eq_nil, <- filter_eq_nil.
  rewrite <- (Permutation_nil_r (filter _ _)), <- selection_Permutation.
  by rewrite Permutation_nil_r.
Qed.

(** X13: no hotel is selected twice: when the rows of the dataset are
    pairwise distinct, as rows with the labels of [read_csv] are, so are the
    rows that [select] returns. *)
Theorem select_returns_distinct_rows (df : DataFrame) (city : value)
    (min_rating : float64) (top_n : nat) (out : DataFrame) :
  NoDup (rows df) →
  select df city min_rating top_n = Ok out →
  NoDup (rows out).
Proof.
  intros Hnodup (_ & _ & _ & ->)%select_inv. simpl.
  eapply sublist_NoDup; [| apply sublist_take].
  rewrite selection_Permutation. by apply NoDup_filter.
Qed.

End SelectExtraSorted.

Lemma loaded_sample_NoDup : NoDup (rows loaded_sample).
Proof.
  apply (NoDup_fmap_1 fst). rewrite loaded_sample_index. by_evaluation.
Qed.

Lemma select_on_loaded_frame_witness :
  ∃ out,
    select (R := stable_runtime) loaded_sample (txt "Lyon") (Fin 7) 5 =
      Ok out ∧
    (rows out).*1 = [5].
Proof.
  destruct (select_on_loaded_frame (R := stable_runtime) default_csv_path
              loaded_sample (txt "Lyon") (Fin 7) 5 loaded_sample_Ok)
    as [Hsel _].
  destruct Hsel as (out & Hout & _); [by_evaluation |].
  exists out. split; [done |].
  vm_compute in Hout. injection Hout as <-. reflexivity.
Defined.

Lemma select_smaller_count_is_prefix_witness :
  ∃ out out',
    select (R := stable_runtime) loaded_sample (txt "Paris") (Fin 8) 2 =
      Ok out ∧
    select (R := stable_runtime) loaded_sample (txt "Paris") (Fin 8) 3 =
      Ok out' ∧
    (rows out').*1 = [0; 1; 3] ∧
    rows out = take 2 (rows out').
Proof.
  eexists _, _.
  split; [vm_compute; reflexivity |]. split; [vm_compute; reflexivity |].
  split; [reflexivity |].
  apply (select_smaller_count_is_prefix (R := stable_runtime) loaded_sample
           (txt "Paris") (Fin 8) 2 3); [lia | |]; vm_compute; reflexivity.
Defined.

Lemma select_empty_iff_nothing_matches_witness :
  ∃ out,
    select (R := stable_runtime) loaded_sample (txt "Lyon") (Fin 8) 5 =
      Ok out ∧
    rows out = [].
Proof.
  eexists. split; [vm_compute; reflexivity |].
  apply (select_empty_iff_nothing_matches (R := stable_runtime)
           (HR := stable_runtime_spec) loaded_sample (txt "Lyon") (Fin 8) 5).
  - vm_compute. reflexivity.
  - right. by_evaluation.
Defined.

Lemma select_returns_distinct_rows_witness :
  ∃ out,
    select (R := reversing_runtime) loaded_sample (txt "Paris") (Fin 8) 5 =
      Ok out ∧
    (rows out).*1 = [0; 3; 1] ∧
    NoDup (rows out).
Proof.
  eexists. split; [vm_compute; reflexivity |]. split; [reflexivity |].
  apply (select_returns_distinct_rows (R := reversing_runtime)
           (HR := reversing_runtime_spec) loaded_sample (txt "Paris")
           (Fin 8) 5).
  - apply loaded_sample_NoDup.
  - vm_compute. reflexivity.
Defined.

(** ** More on colours and rating texts *)

Lemma color_rank_values :
  color_rank (lit "green") = 3 ∧ color_rank (lit "orange") = 2 ∧
  color_rank (lit "red") = 1 ∧ color_rank (lit "gray") = 0.
Proof. by vm_compute. Qed.

Lemma color_rank_monotone x y :
  float_geb x y = true →
  ∃ cx cy,
    color_by_rating (VFloat x) = Ok cx ∧ color_by_rating (VFloat y) = Ok cy ∧
    color_rank cy ≤ color_rank cx.
Proof.
  destruct color_rank_values as (Hg & Ho & Hr & _).
  destruct x as [| |x|], y as [| |y|]; try done; intros Hge.
  - exists (lit "red"), (lit "red"). by rewrite Hr.
  - rewrite color_by_rating_fin.
    destruct (Qle_bool 9 x), (Qle_bool 8 x); eexists _, (lit "red");
      (split; [done |]); (split; [done |]); rewrite ?Hg, ?Ho, ?Hr; lia.
  - apply float_geb_fin in Hge. rewrite !color_by_rating_fin.
    destruct (Qle_bool 9 y) eqn:H9y.
    { apply Qle_bool_iff in H9y.
      assert (Qle_bool 9 x = true) as ->
        by (apply Qle_bool_iff; by apply Qle_trans with y).
      eexists _, _. split; [done |]. split; [done |]. lia. }
    destruct (Qle_bool 8 y) eqn:H8y.
    { apply Qle_bool_iff in H8y.
      assert (Qle_bool 8 x = true) as H8x
        by (apply Qle_bool_iff; by apply Qle_trans with y).
      rewrite H8x. destruct (Qle_bool 9 x); eexists _, _;
        (split; [done |]); (split; [done |]); rewrite ?Hg, ?Ho; lia. }
    destruct (Qle_bool 9 x), (Qle_bool 8 x); eexists _, _;
      (split; [done |]); (split; [done |]); rewrite ?Hg, ?Ho, ?Hr; lia.
  - exists (lit "green"), (lit "red"). rewrite Hg, Hr.
    split; [done |]. split; [done | lia].
  - rewrite color_by_rating_fin. exists (lit "green").
    destruct (Qle_bool 9 y), (Qle_bool 8 y); eexists;
      (split; [done |]); (split; [done |]); rewrite ?Hg, ?Ho, ?Hr; lia.
  - exists (lit "green"), (lit "green"). by rewrite Hg.
Qed.

(** X11: a higher rating never gets a worse colour: if [x >= y] then the
    colour of [x] ranks at least as high (green over orange over red) as the
    colour of [y], and both are computed without error. *)
Theorem color_by_rating_monotone (x y : float64) :
  float_geb x y = true →
  ∃ cx cy,
    color_by_rating (VFloat x) = Ok cx ∧ color_by_rating (VFloat y) = Ok cy ∧
    cx ∈ rated_colors ∧ cy ∈ rated_colors ∧
    color_rank cy ≤ color_rank cx.
Proof.
  intros Hge.
  destruct (color_rank_monotone x y Hge) as (cx & cy & Hx & Hy & Hle).
  exists cx, cy. repeat split; try done.
  - destruct (color_by_rating_number x) as (c & Hc & Hin).
    + destruct x, y; done.
    + assert (c = cx) as <- by congruence. exact Hin.
  - destruct (color_by_rating_number y) as (c & Hc & Hin).
    + destruct x, y; done.
    + assert (c = cy) as <- by congruence. exact Hin.
Qed.

Lemma color_by_rating_monotone_witness :
  ∃ cx cy,
    color_by_rating (VFloat (Fin 9.2)) = Ok cx ∧
    color_by_rating (VFloat (Fin 8.4)) = Ok cy ∧
    color_rank cy ≤ color_rank cx.
Proof.
  destruct (color_by_rating_monotone (Fin 9.2) (Fin 8.4))
    as (cx & cy & Hx & Hy & _ & _ & Hle); [reflexivity |].
  by exists cx, cy.
Defined.

(** A fraction strictly between [k - 1/2] and [k] rounds to [k]. *)
Lemma round_half_even_up (n : Z) (d : positive) (k : Z) :
  ((2 * k - 1) * Z.pos d < 2 * n)%Z → (n < k * Z.pos d)%Z →
  round_half_even (n # d) = k.
Proof.
  intros Hlow Hhigh. unfold round_half_even. simpl.
  assert (Hdiv : (n / Z.pos d = k - 1)%Z).
  { symmetry. apply (Z.div_unique n (Z.pos d) (k - 1) (n - Z.pos d * (k - 1)));
      lia. }
  assert (Hmod : (n mod Z.pos d = n - Z.pos d * (k - 1))%Z).
  { symmetry. apply (Z.mod_unique n (Z.pos d) (k - 1)); lia. }
  rewrite Hdiv, Hmod.
  assert ((2 * (n - Z.pos d * (k - 1)) ?= Z.pos d)%Z = Gt) as ->
    by (apply Z.compare_gt_iff; lia).
  lia.
Qed.

Lemma format_1f_rounds_up (q : Q) (k : Z) :
  (0 < k)%Z →
  ((2 * k - 1) # 20 < q)%Q → (q < k # 10)%Q →
  format_1f (Fin q) =
    digits (Z.to_N k / 10) ++ lit "." ++ digits (Z.to_N k mod 10).
Proof.
  intros Hk Hlow Hhigh. destruct q as [n d].
  unfold Qlt in Hlow, Hhigh. cbn [Qnum Qden] in Hlow, Hhigh.
  unfold format_1f.
  assert (Hn : (0 < n)%Z).
  { assert (0 < (2 * k - 1) * Z.pos d)%Z by (apply Z.mul_pos_pos; lia). lia. }
  assert (Hpos : Qle_bool 0 (n # d) = true).
  { apply Qle_bool_iff. unfold Qle. simpl. lia. }
  rewrite Hpos. simpl app.
  assert (Hround : round_half_even (Qabs (n # d) * 10) = k).
  { unfold Qabs, Qmult. simpl Qnum. simpl Qden.
    rewrite Pos.mul_1_r, Z.abs_eq by lia.
    apply round_half_even_up; lia. }
  by rewrite Hround.
Qed.

(** X12: the popup rounds the rating to one decimal while the colour is
    decided on the rating itself: a rating strictly between 8.95 and 9 is
    shown as ["9.0"] on an orange marker, and one strictly between 7.95 and
    8 as ["8.0"] on a red marker. *)
Theorem rounded_rating_text_outranks_color (q : Q) :
  ((8.95 < q)%Q → (q < 9)%Q →
   rating_txt (VFloat (Fin q)) = Ok (lit "9.0") ∧
   color_by_rating (VFloat (Fin q)) = Ok (lit "orange")) ∧
  ((7.95 < q)%Q → (q < 8)%Q →
   rating_txt (VFloat (Fin q)) = Ok (lit "8.0") ∧
   color_by_rating (VFloat (Fin q)) = Ok (lit "red")).
Proof.
  split; intros Hlow Hhigh.
  - split.
    + destruct (rating_txt_number (Fin q)) as [-> _]; [done |]. f_equal.
      rewrite (format_1f_rounds_up q 90); [by vm_compute | done | |].
      * eapply Qle_lt_trans; [| exact Hlow]. by vm_compute.
      * eapply Qlt_le_trans; [exact Hhigh |]. by vm_compute.
    + rewrite color_by_rating_fin.
      assert (Qle_bool 9 q = false) as ->.
      { apply not_true_is_false. intros H%Qle_bool_iff.
        by apply Qlt_not_le in Hhigh. }
      assert (Qle_bool 8 q = true) as ->; [| done].
      apply Qle_bool_iff, Qlt_le_weak. eapply Qlt_trans; [| exact Hlow].
      by vm_compute.
  - split.
    + destruct (rating_txt_number (Fin q)) as [-> _]; [done |]. f_equal.
      rewrite (format_1f_rounds_up q 80); [by vm_compute | done | |].
      * eapply Qle_lt_trans; [| exact Hlow]. by vm_compute.
      * eapply Qlt_le_trans; [exact Hhigh |]. by vm_compute.
    + rewrite color_by_rating_fin.
      assert (Qle_bool 8 q = false) as H8.
      { apply not_true_is_false. intros H%Qle_bool_iff.
        by apply Qlt_not_le in Hhigh. }
      assert (Qle_bool 9 q = false) as ->; [| by rewrite H8].
      apply not_true_is_false. intros H%Qle_bool_iff.
      apply (Qlt_not_le _ _ Hhigh). eapply Qle_trans; [| exact H].
      by vm_compute.
Qed.

Lemma rounded_rating_text_outranks_color_witness :
  rating_txt (VFloat (Fin 8.97)) = Ok (lit "9.0") ∧
  color_by_rating (VFloat (Fin 8.97)) = Ok (lit "orange").
Proof.
  apply (rounded_rating_text_outranks_color 8.97); by vm_compute.
Defined.

(** ** More on popups and markers *)

Lemma count_char_app c s t :
  count_char c (s ++ t) = count_char c s + count_char c t.
Proof. unfold count_char. by rewrite filter_app, length_app. Qed.

Lemma count_char_safe c s :
  breaks_markup c → (∀ x, x ∈ s → ¬ breaks_markup x) → count_char c s = 0.
Proof.
  intros Hc Hs. unfold count_char.
  assert (filter (λ x, x = c) s = []) as ->; [| done].
  apply filter_eq_nil, Forall_forall. intros x Hx ->. by apply (Hs c).
Qed.

Lemma numeric_char_safe c : numeric_char c → ¬ breaks_markup c.
Proof.
  unfold numeric_char, breaks_markup.
  intros Hc [-> | [-> | [-> | ->]]]; revert Hc.
  - change (c_lt ∉ lit "-.0123456789infa"). by_evaluation.
  - change (c_gt ∉ lit "-.0123456789infa"). by_evaluation.
  - change (c_dquote ∉ lit "-.0123456789infa"). by_evaluation.
  - change (c_squote ∉ lit "-.0123456789infa"). by_evaluation.
Qed.

Lemma rating_txt_safe rating txt c :
  rating_txt rating = Ok txt → c ∈ txt → ¬ breaks_markup c.
Proof.
  unfold rating_txt, notna. destruct rating as [|f|s]; simpl.
  - intros [= <-] Hc. unfold breaks_markup.
    each_char Hc (intros [? | [? | [? | ?]]]; done).
  - destruct (is_nan f); simpl.
    + intros [= <-] Hc. unfold breaks_markup.
      each_char Hc (intros [? | [? | [? | ?]]]; done).
    + intros [= <-] Hc. eapply numeric_char_safe, format_1f_numeric, Hc.
  - done.
Qed.

(** The markup characters of a popup are those of its template when the
    four texts put into it hold none. *)
Lemma count_char_popup_html c a b d e :
  breaks_markup c →
  (∀ x, x ∈ a → ¬ breaks_markup x) → (∀ x, x ∈ b → ¬ breaks_markup x) →
  (∀ x, x ∈ d → ¬ breaks_markup x) → (∀ x, x ∈ e → ¬ breaks_markup x) →
  count_char c (popup_html a b d e) = count_char c (popup_html [] [] [] []).
Proof.
  intros Hc Ha Hb Hd He. unfold popup_html. rewrite !count_char_app.
  rewrite (count_char_safe c a), (count_char_safe c b),
    (count_char_safe c d), (count_char_safe c e) by done.
  change (count_char c []) with 0. lia.
Qed.

Section PopupExtra.
Context {R : Runtime}.

(** X10: whatever the row holds, the popup of a rendered marker has the
    markup of the template and no more: 13 [<], 13 [>], 8 double quotes and
    no single quote.  The hotel's name, rating, description and link add no
    tag and close no attribute. *)
Theorem popup_markup_is_the_template (row : gmap string value) (m : Marker) :
  render_row row = Ok m →
  count_char c_lt (popup m) = 13 ∧ count_char c_gt (popup m) = 13 ∧
  count_char c_dquote (popup m) = 8 ∧ count_char c_squote (popup m) = 0.
Proof.
  intros (txt & lat & lon & r & c & Htxt & _ & _ & _ & _ & _ & Hm)
    %render_row_inv.
  rewrite Hm. cbn [popup].
  assert (Hcount : ∀ x, breaks_markup x →
            count_char x
              (popup_html (html_escape (py_str (name_of row))) txt
                 (safe_desc (desc_of row))
                 (html_escape (py_str (url_of row)))) =
            count_char x (popup_html [] [] [] [])).
  { intros x Hx. apply count_char_popup_html; [done | | | |].
    - apply html_escape_safe.
    - intros y. by apply rating_txt_safe with (rating_of row).
    - apply safe_desc_safe.
    - apply html_escape_safe. }
  unfold breaks_markup in Hcount.
  rewrite !Hcount by auto. by vm_compute.
Qed.

(** X2: the box given to [fit_bounds] and the markers go together: the map
    has one marker per selected row and one corner per marker, in the same
    order, each marker stands where folium's validation puts the latitude
    and longitude of its corner, and the markers are clustered exactly when
    there are more than ten. *)
Theorem bounds_follow_markers (df : DataFrame) (m : FoliumMap) :
  build_map df = Ok m →
  length (markers m) = length (rows df) ∧
  Forall2 (λ b k, validate_location b.1 b.2 = Ok (location k))
    (bounds m) (markers m) ∧
  clustered m = bool_decide (10 < length (markers m)).
Proof.
  unfold build_map. destruct (lat_lon_list df) as [b|] eqn:Hb; [| done].
  simpl. destruct (mapM _ _) as [ms|] eqn:Hms; [| done]. simpl.
  intros [= <-]. simpl. apply mapM_result_inv in Hms.
  pose proof (Forall2_length _ _ _ Hms) as Hlen.
  split; [done |]. split; [| by rewrite Hlen].
  unfold lat_lon_list in Hb. destruct (filter _ _); [| done].
  injection Hb as <-. apply Forall2_fmap_l.
  eapply Forall2_impl; [exact Hms |]. simpl.
  intros r k (txt & lat & lon & r' & c & _ & Hlat & Hlon & _ & _ & Hloc & _)
    %render_row_inv.
  unfold cell. by rewrite Hlat, Hlon.
Qed.

End PopupExtra.

Lemma popup_markup_is_the_template_witness :
  ∃ m,
    render_row (R := stable_runtime)
      (hotel (txt "Paris") (txt "<b>Chez 'Max'</b>") (num 9.1) (num 48.85)
         (num 2.35) (VStr (c_dquote :: lit " onclick='x'"))
         (txt "<script>")) = Ok m ∧
    count_char c_lt (popup m) = 13 ∧ count_char c_dquote (popup m) = 8.
Proof.
  destruct (render_row (R := stable_runtime) _) as [m|] eqn:Hm;
    [| by vm_compute in Hm].
  exists m. split; [done |].
  destruct (popup_markup_is_the_template _ _ Hm) as (Hlt & _ & Hdq & _).
  by split.
Defined.

Lemma bounds_follow_markers_witness :
  ∃ m,
    build_map (R := stable_runtime) loaded_sample = Ok m ∧
    length (markers m) = 4 ∧ length (bounds m) = 4 ∧ clustered m = false.
Proof.
  destruct (build_map (R := stable_runtime) loaded_sample) as [m|] eqn:Hm;
    [| by vm_compute in Hm].
  exists m. split; [done |].
  destruct (bounds_follow_markers _ _ Hm) as (Hlen & Hall & Hcl).
  apply Forall2_length in Hall. rewrite Hcl, Hall, Hlen. by vm_compute.
Defined.

(** Sortedness carries over along a pointwise relation. *)
Lemma StronglySorted_Forall2 {A B} (R : relation A) (S : relation B)
    (P : A → B → Prop) l ks :
  (∀ a b ka kb, R a b → P a ka → P b kb → S ka kb) →
  Forall2 P l ks → StronglySorted R l → StronglySorted S ks.
Proof.
  intros Himp Hall.
  induction Hall as [|a k l ks Hak Hall IH]; intros Hs; [constructor |].
  apply StronglySorted_inv in Hs as [Hs Ha].
  constructor; [by apply IH |].
  apply Forall_forall. intros kb Hkb.
  apply list_elem_of_lookup in Hkb as [i Hi].
  destruct (Forall2_lookup_r _ _ _ _ _ Hall Hi) as (b & Hb & Pb).
  rewrite Forall_forall in Ha.
  eapply Himp; [apply Ha; by eapply list_elem_of_lookup_2 | done | done].
Qed.

Lemma mapM_result_Raise {A B} (f : A → result B) (l : list A) (x : A) e :
  x ∈ l → (∀ y, y ∈ l → (∃ b, f y = Ok b) ∨ f y = Raise e) →
  f x = Raise e → mapM f l = Raise e.
Proof.
  intros Hx Hall Hfx. induction l as [|a l IH]; [by apply elem_of_nil in Hx |].
  simpl. destruct (Hall a) as [[b Hb] | Ha]; [by left | | by rewrite Ha].
  rewrite Hb. simpl.
  apply elem_of_cons in Hx as [-> | Hx]; [congruence |].
  rewrite IH; [done | done |]. intros y Hy. apply Hall. by right.
Qed.

Section MarkerExtra.
Context {R : Runtime}.

Lemma validate_coord_raises v e : validate_coord v = Raise e → e = ValueError.
Proof.
  unfold validate_coord. destruct v as [|f|s].
  - by intros [= <-].
  - destruct (is_nan f); [by intros [= <-] | done].
  - destruct (float_of_str s) as [f|]; [| by intros [= <-]].
    destruct (is_nan f); [by intros [= <-] | done].
Qed.

Lemma validate_location_raises lat lon e :
  validate_location lat lon = Raise e → e = ValueError.
Proof.
  unfold validate_location.
  destruct (validate_coord lat) as [a|e'] eqn:Ha; simpl.
  - destruct (validate_coord lon) as [b|e''] eqn:Hb; simpl; [done |].
    intros [= <-]. by eapply validate_coord_raises.
  - intros [= <-]. by eapply validate_coord_raises.
Qed.

(** On a loaded record the loop body fails only in folium's validation of
    the coordinates. *)
Lemma render_row_loaded row :
  valid_record row →
  match validate_location (cell "hotel_latitude" (0, row))
          (cell "hotel_longitude" (0, row)) with
  | Ok _ => ∃ m, render_row row = Ok m
  | Raise _ => render_row row = Raise ValueError
  end.
Proof.
  intros Hvalid.
  pose proof Hvalid as (_ & (lat & Hlat & _) & (lon & Hlon & _)).
  apply valid_record_rated in Hvalid
    as (f & c & Hf & _ & Hrating & Hc & _ & _ & Htxt & _).
  unfold cell. simpl. rewrite Hlat, Hlon. simpl.
  unfold render_row, row_getitem.
  fold (rating_of row). rewrite Htxt, Hlat, Hlon, Hf.
  cbn [mbind result_bind]. rewrite Hc. cbn [mbind result_bind].
  destruct (validate_location lat lon) as [loc|e] eqn:Hloc.
  - eexists. reflexivity.
  - apply validate_location_raises in Hloc as ->. reflexivity.
Qed.

End MarkerExtra.

Section MapExtra.
Context {R : Runtime}.

Lemma selected_rows_valid path df city min_rating top_n out :
  load_data path = Ok df → select df city min_rating top_n = Ok out →
  Forall (λ r, valid_record r.2) (rows out).
Proof.
  intros Hload Hsel. apply Forall_forall.
  intros r Hr%(select_subseteq _ _ _ _ _ Hsel).
  pose proof (load_data_valid _ _ Hload) as Hall.
  rewrite Forall_forall in Hall. by apply Hall.
Qed.

Lemma lat_lon_list_Ok df :
  "hotel_latitude" ∈ columns df → "hotel_longitude" ∈ columns df →
  lat_lon_list df =
    Ok ((λ r, (cell "hotel_latitude" r, cell "hotel_longitude" r))
          <$> rows df).
Proof.
  intros Hlat Hlon. unfold lat_lon_list.
  rewrite !filter_cons_False by (intros Hno; by apply Hno).
  by rewrite filter_nil.
Qed.

Lemma rejected_string_raises lat lon :
  (∃ s, lat = VStr s ∧ float_of_str s = None) ∨
  (∃ s, lon = VStr s ∧ float_of_str s = None) →
  ∃ e, validate_location lat lon = Raise e.
Proof.
  assert (Hbad : ∀ s, float_of_str s = None →
            validate_coord (VStr s) = Raise ValueError).
  { intros s Hs. unfold validate_coord. simpl. by rewrite Hs. }
  unfold validate_location.
  intros [(s & -> & Hs) | (s & -> & Hs)].
  - exists ValueError. by rewrite Hbad.
  - destruct (validate_coord lat) as [a|e]; cbn [mbind result_bind];
      [| by exists e].
    exists ValueError. by rewrite Hbad.
Qed.

Lemma build_map_rejected df r e :
  "hotel_latitude" ∈ columns df → "hotel_longitude" ∈ columns df →
  Forall (λ r, valid_record r.2) (rows df) →
  r ∈ rows df →
  validate_location (cell "hotel_latitude" r) (cell "hotel_longitude" r) =
    Raise e →
  build_map df = Raise ValueError.
Proof.
  intros Hlat Hlon Hvalid Hr Hloc. unfold build_map.
  rewrite lat_lon_list_Ok by done. cbn [mbind result_bind].
  rewrite (mapM_result_Raise _ _ r ValueError); [done | done | |].
  - intros y Hy. rewrite Forall_forall in Hvalid.
    pose proof (render_row_loaded y.2 (Hvalid y Hy)) as Hcase.
    destruct (validate_location (cell "hotel_latitude" (0, y.2))
                (cell "hotel_longitude" (0, y.2))); [by left | by right].
  - rewrite Forall_forall in Hvalid.
    pose proof (render_row_loaded r.2 (Hvalid r Hr)) as Hcase.
    change (cell "hotel_latitude" (0, r.2)) with (cell "hotel_latitude" r)
      in Hcase.
    change (cell "hotel_longitude" (0, r.2)) with (cell "hotel_longitude" r)
      in Hcase.
    by rewrite Hloc in Hcase.
Qed.

(** X14: a selected hotel whose latitude or longitude is a text that
    [float] cannot convert passes the loader and the filter, and then makes
    [folium.Marker] raise: the run shows the widgets and the city heading and
    dies of a [ValueError], with neither map nor legend. *)
Theorem rejected_coordinate_stops_at_title (hotels_csv : option (list N))
    (ui : Interaction) (df : DataFrame) (cities : list value) (city : list N)
    (city_df : DataFrame) (r : nat * gmap string value) :
  load_data (CSV_PATH hotels_csv) = Ok df →
  cities_of df = Ok cities →
  cities !! chosen_city ui = Some (VStr city) →
  select df (VStr city) (min_rating ui) (top_n ui) = Ok city_df →
  r ∈ rows city_df →
  (∃ s, cell "hotel_latitude" r = VStr s ∧ float_of_str s = None) ∨
  (∃ s, cell "hotel_longitude" r = VStr s ∧ float_of_str s = None) →
  build_map city_df = Raise ValueError ∧
  run hotels_csv ui =
    (page_with_widgets cities ++
       [Markdown (city_heading (length (rows city_df)) city) true],
     Uncaught ValueError).
Proof.
  intros Hload Hcities Hchoice Hsel Hr Hbad.
  assert (Hmap : build_map city_df = Raise ValueError).
  { destruct (rejected_string_raises _ _ Hbad) as [e He].
    pose proof (load_data_columns _ _ Hload) as Hcols.
    rewrite !Forall_cons in Hcols. destruct Hcols as (_ & Hlat & Hlon & _).
    pose proof (selected_rows_valid _ _ _ _ _ _ Hload Hsel) as Hvalid.
    pose proof Hsel as (_ & _ & _ & Hout)%select_inv.
    apply (build_map_rejected city_df r e); try done; by rewrite Hout. }
  split; [done |].
  rewrite run_cases, Hload, Hcities, Hchoice. cbv zeta.
  cbn [from_option id]. rewrite Hsel.
  assert (empty city_df = false) as ->.
  { apply not_true_is_false. intros Hempty%empty_spec.
    rewrite Hempty in Hr. by apply elem_of_nil in Hr. }
  unfold city_title, html_escape_value. cbn [mbind result_bind].
  by rewrite Hmap.
Qed.

End MapExtra.

Section MapExtraSorted.
Context {R : Runtime} {HR : RuntimeSpec R}.

(** X15: on the map the markers come best colour first: the markers of a
    selection taken from loaded data are added green before orange before
    red, since the rows are sorted by rating and a higher rating never gets a
    worse colour. *)
Theorem markers_best_colour_first (path : str) (df : DataFrame) (city : value)
    (min_rating : float64) (top_n : nat) (city_df : DataFrame)
    (m : FoliumMap) :
  load_data path = Ok df →
  select df city min_rating top_n = Ok city_df →
  build_map city_df = Ok m →
  StronglySorted
    (λ a b, color_rank (icon_color b) ≤ color_rank (icon_color a))
    (markers m).
Proof.
  intros Hload Hsel Hm.
  pose proof (selected_rows_valid _ _ _ _ _ _ Hload Hsel) as Hvalid.
  pose proof (build_map_rated _ _ Hvalid Hm) as Hall.
  apply select_inv in Hsel as (_ & _ & _ & Hout).
  assert (Hsorted : StronglySorted rating_ge (rows city_df)).
  { rewrite Hout. simpl.
    eapply StronglySorted_sublist; [apply sublist_take |].
    apply selection_sorted. }
  eapply StronglySorted_Forall2; [| exact Hall | exact Hsorted].
  intros a b ka kb (x & y & Hx & Hy & Hge)
    (f & Hf & _ & _ & _ & _ & Hcf & _) (g & Hg & _ & _ & _ & _ & Hcg & _).
  unfold cell in Hx, Hy. rewrite Hf in Hx. rewrite Hg in Hy.
  simpl in Hx, Hy. injection Hx as ->. injection Hy as ->.
  destruct (color_rank_monotone x y Hge)
    as (cx & cy & Hcx & Hcy & Hle).
  rewrite Hcf in Hcx. rewrite Hcg in Hcy.
  injection Hcx as <-. injection Hcy as <-. done.
Qed.

End MapExtraSorted.

Lemma rejected_coordinate_stops_at_title_witness :
  ∃ title,
    run (R := bad_latitude_runtime) None
      {| chosen_city := 0; min_rating := Fin 8; top_n := 20 |} =
    (page_with_widgets [txt "Paris"] ++ [Markdown title true],
     Uncaught ValueError).
Proof.
  edestruct (rejected_coordinate_stops_at_title (R := bad_latitude_runtime)
               None {| chosen_city := 0; min_rating := Fin 8; top_n := 20 |})
    as [_ Hrun].
  - vm_compute. reflexivity.
  - vm_compute. reflexivity.
  - reflexivity.
  - vm_compute. reflexivity.
  - apply list_elem_of_here.
  - left. eexists. split; vm_compute; reflexivity.
  - eexists. exact Hrun.
Defined.

Lemma markers_best_colour_first_witness :
  ∃ out m,
    select (R := stable_runtime) loaded_sample (txt "Paris") (Fin 8) 5 =
      Ok out ∧
    build_map (R := stable_runtime) out = Ok m ∧
    icon_color <$> markers m = [lit "green"; lit "orange"; lit "orange"] ∧
    StronglySorted
      (λ a b, color_rank (icon_color b) ≤ color_rank (icon_color a))
      (markers m).
Proof.
  eexists _, _. split; [vm_compute; reflexivity |].
  split; [vm_compute; reflexivity |]. split; [reflexivity |].
  eapply (markers_best_colour_first (R := stable_runtime)
            (HR := stable_runtime_spec) default_csv_path loaded_sample
            (txt "Paris") (Fin 8) 5 _ _ loaded_sample_Ok).
  - vm_compute. reflexivity.
  - vm_compute. reflexivity.
Defined.

(** ** More on whole runs *)

Lemma omap_lookup_nil {A} (l : list nat) : omap (([] : list A) !!.) l = [].
Proof. induction l as [|i l IH]; [done |]. by destruct i. Qed.

Section RunExtra.
Context {R : Runtime}.

Lemma build_map_shape df m :
  build_map df = Ok m →
  length (markers m) = length (rows df) ∧
  length (bounds m) = length (rows df) ∧
  clustered m = bool_decide (10 < length (rows df)) ∧
  tiles m = lit "OpenStreetMap".
Proof.
  intros Hm. pose proof (build_map_inv _ _ Hm) as [Hall Hlen].
  apply Forall2_length in Hall. split; [done |]. split; [done |].
  revert Hm. unfold build_map.
  destruct (lat_lon_list df) as [b|]; [| done]. simpl.
  destruct (mapM _ _) as [ms|]; [| done]. simpl. by intros [= <-].
Qed.

Lemma city_rows_None df : city_rows df VNone = [].
Proof.
  unfold city_rows. apply filter_eq_nil, Forall_forall. intros r _.
  by destruct (cell "city_name" r).
Qed.

(** X1: a run that reaches its end has put on the page, after the title and
    the three widgets, the heading of the chosen city with the number of
    hotels shown, the map and the legend, in this order.  The chosen city is
    a text of the city list; the map has between one and [top_n] markers, as
    many corners as markers, OpenStreetMap tiles, and clusters its markers
    exactly when they are more than ten. *)
Theorem completed_run_page (hotels_csv : option (list N)) (ui : Interaction)
    (page : list ui_event) :
  run hotels_csv ui = (page, Continue ()) →
  ∃ cities city m,
    cities !! chosen_city ui = Some (VStr city) ∧
    page =
      page_with_widgets cities ++
        [Markdown (city_heading (length (markers m)) city) true;
         Folium m 1000 600; Markdown legend false] ∧
    1 ≤ length (markers m) ≤ top_n ui ∧
    length (bounds m) = length (markers m) ∧
    clustered m = bool_decide (10 < length (markers m)) ∧
    tiles m = lit "OpenStreetMap".
Proof.
  rewrite run_cases.
  destruct (load_data _) as [df|]; [| done].
  destruct (cities_of df) as [cities|]; [| done]. cbv zeta.
  destruct (select _ _ _ _) as [city_df|] eqn:Hsel; [| done].
  destruct (empty city_df) eqn:Hempty; [done |].
  destruct (city_title _ _) as [title|] eqn:Htitle; [| done].
  destruct (build_map city_df) as [m|] eqn:Hm; [| done].
  intros [= <-].
  apply build_map_shape in Hm as (Hmarkers & Hbounds & Hcl & Htiles).
  unfold city_title in Htitle.
  destruct (cities !! chosen_city ui) as [[|f|city]|] eqn:Hchoice;
    try done.
  simpl in Htitle. injection Htitle as <-.
  exists cities, city, m. rewrite Hmarkers. repeat split; try done.
  - destruct (rows city_df) eqn:Hrows; [| simpl; lia].
    apply empty_spec in Hrows. congruence.
  - apply select_inv in Hsel as (_ & _ & _ & ->). simpl.
    rewrite length_take. lia.
Qed.

(** X5: when the loaded file names no city at all, the city list is empty,
    the select box yields [None], no row can match it, and the run stops on
    the warning that no hotel meets the criteria in [None]: it neither fails
    nor draws a map. *)
Theorem no_city_stops_with_warning (hotels_csv : option (list N))
    (ui : Interaction) (df : DataFrame) :
  load_data (CSV_PATH hotels_csv) = Ok df →
  "city_name" ∈ columns df →
  Forall (λ r, isna (cell "city_name" r) = true) (rows df) →
  cities_of df = Ok [] ∧
  run hotels_csv ui =
    (page_with_widgets [] ++
       [Warning (lit "No hotels meeting the criteria in **None**.")],
     Stopped).
Proof.
  intros Hload Hcity Hall.
  assert (Hcities : cities_of df = Ok []).
  { unfold cities_of, getitem. rewrite decide_True by done.
    cbn [mbind result_bind].
    assert (filter (λ v, notna v) (cell "city_name" <$> rows df) = []) as ->;
      [| by vm_compute].
    apply filter_eq_nil, Forall_fmap.
    eapply Forall_impl; [exact Hall |]. intros r Hr.
    unfold compose, notna. rewrite Hr. intros []. }
  split; [done |].
  pose proof (load_data_columns _ _ Hload) as Hcols.
  rewrite !Forall_cons in Hcols. destruct Hcols as (Hrating & _).
  rewrite run_cases, Hload, Hcities. cbv zeta.
  rewrite lookup_nil. cbn [from_option id].
  rewrite select_Ok; [| done | done | by rewrite city_rows_None].
  unfold selection. rewrite city_rows_None, omap_lookup_nil, filter_nil.
  rewrite take_nil. reflexivity.
Qed.

End RunExtra.

Lemma completed_run_page_witness :
  ∃ cities city m,
    cities !! 1 = Some (VStr city) ∧
    (run (R := stable_runtime) None
       {| chosen_city := 1; min_rating := Fin 8; top_n := 20 |}).1 =
      page_with_widgets cities ++
        [Markdown (city_heading (length (markers m)) city) true;
         Folium m 1000 600; Markdown legend false] ∧
    length (markers m) = 3.
Proof.
  pose (ui := {| chosen_city := 1; min_rating := Fin 8; top_n := 20 |}).
  assert (Hrun : run (R := stable_runtime) None ui =
                 ((run (R := stable_runtime) None ui).1, Continue ()))
    by (vm_compute; reflexivity).
  destruct (completed_run_page _ _ _ Hrun)
    as (cities & city & m & Hchoice & Hpage & _).
  exists cities, city, m. split; [exact Hchoice |]. split; [exact Hpage |].
  assert (Hlen : length (run (R := stable_runtime) None ui).1 = 8)
    by (vm_compute; reflexivity).
  rewrite Hpage in Hlen.
  assert (Hmap : (run (R := stable_runtime) None ui).1 !! 6 =
                 Some (Folium m 1000 600)) by (by rewrite Hpage).
  vm_compute in Hmap. injection Hmap as <-. reflexivity.
Defined.

Lemma no_city_stops_with_warning_witness :
  run (R := unrated_runtime) None
    {| chosen_city := 0; min_rating := Fin 8; top_n := 20 |} =
  (page_with_widgets [] ++
     [Warning (lit "No hotels meeting the criteria in **None**.")],
   Stopped).
Proof.
  edestruct (no_city_stops_with_warning (R := unrated_runtime) None
               {| chosen_city := 0; min_rating := Fin 8; top_n := 20 |})
    as [_ Hrun].
  - vm_compute. reflexivity.
  - by_evaluation.
  - vm_compute. constructor.
  - exact Hrun.
Defined.

(** ** The city list *)

Lemma str_leb_total s t : str_leb s t ∨ str_leb t s.
Proof.
  revert t. induction s as [|a s IH]; intros [|b t]; simpl; auto.
  destruct (N.ltb_spec a b), (N.ltb_spec b a); simpl; auto; lia.
Qed.

Lemma str_leb_trans s t u : str_leb s t → str_leb t u → str_leb s u.
Proof.
  revert t u. induction s as [|a s IH]; intros [|b t] [|c u]; simpl;
    try done.
  destruct (N.ltb_spec a b), (N.ltb_spec b a), (N.ltb_spec b c),
    (N.ltb_spec c b), (N.ltb_spec a c), (N.ltb_spec c a);
    simpl; try done; try lia.
  apply IH.
Qed.

Lemma existsb_py_eq_str x seen :
  existsb (py_eq (VStr x)) (VStr <$> seen) = true ↔ x ∈ seen.
Proof.
  induction seen as [|y seen IH]; simpl.
  - split; [done | by intros ?%elem_of_nil].
  - rewrite orb_true_iff, IH, elem_of_cons, bool_decide_eq_true. done.
Qed.

(** [unique] on texts: every text once, none lost. *)
Lemma unique_from_str seen ss :
  ∃ us,
    unique_from (VStr <$> seen) (VStr <$> ss) = VStr <$> us ∧
    NoDup us ∧ ∀ s, s ∈ us ↔ s ∈ ss ∧ s ∉ seen.
Proof.
  revert seen. induction ss as [|x ss IH]; intros seen.
  - exists []. split; [done |]. split; [constructor |].
    intros s. split; [by intros ?%elem_of_nil | by intros [?%elem_of_nil _]].
  - rewrite fmap_cons. cbn [unique_from].
    destruct (existsb _ _) eqn:Hseen.
    + apply existsb_py_eq_str in Hseen.
      destruct (IH seen) as (us & Hus & Hnodup & Hmem).
      exists us. split; [done |]. split; [done |].
      intros s. rewrite Hmem, elem_of_cons. split.
      * intros [Hs Hno]. auto.
      * intros [[-> | Hs] Hno]; [done | auto].
    + assert (Hnew : x ∉ seen).
      { intros Hx%existsb_py_eq_str. congruence. }
      destruct (IH (x :: seen)) as (us & Hus & Hnodup & Hmem).
      exists (x :: us). rewrite fmap_cons in Hus. rewrite Hus.
      split; [done |]. split.
      * constructor; [| done]. intros [_ Hx]%Hmem. apply Hx. by left.
      * intros s. rewrite !elem_of_cons, Hmem, elem_of_cons. split.
        -- intros [-> | [Hs Hno]]; [auto |]. split; [auto |].
           intros Hin. apply Hno. by right.
        -- intros [[-> | Hs] Hno]; [by left |].
           destruct (decide (s = x)) as [-> | Hne]; [by left |].
           right. split; [done |]. by intros [? | ?].
Qed.

Lemma fmap_omap_get_str l :
  Forall (λ v, ∃ s, v = VStr s) l → VStr <$> omap get_str l = l.
Proof.
  induction 1 as [|v l [s ->] _ IH]; [done |].
  simpl. f_equal. exact IH.
Qed.

Section CitiesExtra.
Context {R : Runtime}.

(** X3: when the file has a city column whose filled-in cells are texts,
    the options of the select box are exactly the city names that occur in
    the data, each once, in lexicographic order of their code points. *)
Theorem cities_sorted_distinct (df : DataFrame) :
  "city_name" ∈ columns df →
  Forall (λ r, isna (cell "city_name" r) = true ∨
               ∃ s, cell "city_name" r = VStr s) (rows df) →
  ∃ names,
    cities_of df = Ok (VStr <$> names) ∧
    NoDup names ∧
    StronglySorted (λ s t, str_leb s t) names ∧
    ∀ s, s ∈ names ↔ ∃ r, r ∈ rows df ∧ cell "city_name" r = VStr s.
Proof.
  intros Hcity Hcells.
  set (kept := filter (λ v, notna v) (cell "city_name" <$> rows df)).
  assert (Hkept : Forall (λ v, ∃ s, v = VStr s) kept).
  { apply Forall_forall. intros v [Hv Hin]%list_elem_of_filter.
    apply list_elem_of_fmap in Hin as (r & -> & Hr).
    rewrite Forall_forall in Hcells.
    destruct (Hcells r Hr) as [Hna | Hs]; [| done].
    unfold notna in Hv. by rewrite Hna in Hv. }
  destruct (unique_from_str [] (omap get_str kept))
    as (us & Hus & Hnodup & Hmem).
  rewrite fmap_omap_get_str in Hus by done.
  exists (merge_sort (λ s t, str_leb s t) us).
  split; [| split; [| split]].
  - unfold cities_of, getitem. rewrite decide_True by done.
    cbn [mbind result_bind]. fold kept. unfold unique.
    change (@nil value) with (VStr <$> @nil (list N)). rewrite Hus.
    unfold py_sorted. by rewrite (mapM_fmap_Some get_str VStr).
  - by rewrite merge_sort_Permutation.
  - assert (Htrans : Transitive (λ s t : list N, Is_true (str_leb s t)))
      by (intros s t u; apply str_leb_trans).
    assert (Htotal : Total (λ s t : list N, Is_true (str_leb s t)))
      by (intros s t; apply str_leb_total).
    apply (StronglySorted_merge_sort _).
  - intros s. rewrite merge_sort_Permutation, Hmem, list_elem_of_omap.
    split.
    + intros [(v & [Hv Hin]%list_elem_of_filter & Hs) _].
      destruct v as [|f|s']; try done. injection Hs as ->.
      apply list_elem_of_fmap in Hin as (r & Hr & Hin). by exists r.
    + intros (r & Hr & Hs). split; [| by intros ?%elem_of_nil].
      exists (VStr s). split; [| done].
      apply list_elem_of_filter. split; [done |].
      apply list_elem_of_fmap. by exists r.
Qed.

End CitiesExtra.

Lemma cities_sorted_distinct_witness :
  ∃ names,
    cities_of loaded_sample = Ok (VStr <$> names) ∧
    names = [lit "Lyon"; lit "Paris"] ∧ NoDup names.
Proof.
  destruct (cities_sorted_distinct loaded_sample)
    as (names & Hnames & Hnodup & _).
  - by_evaluation.
  - apply (Forall_fmap (cell "city_name")
             (λ v, isna v = true ∨ ∃ s, v = VStr s)).
    assert (cell "city_name" <$> rows loaded_sample =
            [txt "Paris"; txt "Paris"; txt "Paris"; txt "Lyon"]) as ->
      by (vm_compute; reflexivity).
    repeat (apply Forall_cons_2; [right; by eexists |]).
    apply Forall_nil_2.
  - exists names. split; [exact Hnames |]. split; [| exact Hnodup].
    vm_compute in Hnames. injection Hnames as Hnames.
    destruct names as [|a [|b [|c names]]]; try done.
    by injection Hnames as <- <-.
Defined.

(** ** The heading and ratings that are texts *)

Lemma count_char_city_heading c n city :
  breaks_markup c →
  count_char c (city_heading n city) = count_char c (city_heading 0 []).
Proof.
  intros Hc. unfold city_heading. rewrite !count_char_app.
  rewrite !(count_char_safe c (digits _)), !(count_char_safe c (html_escape _));
    first [done | apply html_escape_safe | idtac].
  - intros x Hx. by eapply numeric_char_safe, uint_digits_numeric, Hx.
  - intros x Hx. by eapply numeric_char_safe, uint_digits_numeric, Hx.
Qed.

Section HeadingExtra.
Context {R : Runtime}.

(** X16: the city heading is built only for a city that is a text, and
    whatever that text holds the heading keeps the markup of its template:
    one opening and one closing [h2] tag (2 [<], 2 [>]), the two single
    quotes of the style attribute, and no double quote. *)
Theorem city_title_markup (nb_hotels : nat) (selected_city : value)
    (title : list N) :
  city_title nb_hotels selected_city = Ok title →
  ∃ city,
    selected_city = VStr city ∧ title = city_heading nb_hotels city ∧
    count_char c_lt title = 2 ∧ count_char c_gt title = 2 ∧
    count_char c_squote title = 2 ∧ count_char c_dquote title = 0.
Proof.
  unfold city_title. destruct selected_city as [|f|city]; try done.
  simpl. intros [= <-]. exists city. split; [done |]. split; [done |].
  fold (city_heading nb_hotels city).
  assert (Hcount : ∀ x, breaks_markup x →
            count_char x (city_heading nb_hotels city) =
            count_char x (city_heading 0 [])).
  { intros x Hx. by apply count_char_city_heading. }
  unfold breaks_markup in Hcount. rewrite !Hcount by auto. by vm_compute.
Qed.

(** X17: a rating that is a text stops the loop: the popup's rating cannot
    be formatted ([ValueError]), and [color_by_rating] would raise a
    [TypeError] on it.  [color_by_rating] raises on nothing but a text. *)
Theorem text_rating_breaks_the_loop (row : gmap string value) (s : list N) :
  row !! "hotel_rating" = Some (VStr s) →
  render_row row = Raise ValueError ∧
  color_by_rating (VStr s) = Raise TypeError ∧
  ∀ v e, color_by_rating v = Raise e → e = TypeError ∧ ∃ t, v = VStr t.
Proof.
  intros Hs. split; [| split; [done |]].
  - unfold render_row, row_get. by rewrite Hs.
  - intros [|f|t] e He.
    + done.
    + destruct f as [| |q|]; try done.
      by rewrite color_by_rating_fin in He.
    + rewrite color_by_rating_str in He. injection He as <-.
      split; [done | by exists t].
Qed.

End HeadingExtra.

Lemma city_title_markup_witness :
  ∃ title,
    city_title 3 (txt "<i>Paris</i> & 'co'") = Ok title ∧
    count_char c_lt title = 2 ∧ count_char c_squote title = 2.
Proof.
  destruct (city_title 3 (txt "<i>Paris</i> & 'co'")) as [title|] eqn:Ht;
    [| by vm_compute in Ht].
  exists title. split; [done |].
  destruct (city_title_markup _ _ _ Ht) as (_ & _ & _ & Hlt & _ & Hsq & _).
  by split.
Defined.

Lemma text_rating_breaks_the_loop_witness :
  render_row (R := stable_runtime)
    (hotel (txt "Paris") (txt "Lutetia") (txt "9.5") (num 48.85) (num 2.33)
       (txt "https://example.org/lutetia") (txt "Palace")) =
    Raise ValueError.
Proof.
  eapply (text_rating_breaks_the_loop (R := stable_runtime)).
  reflexivity.
Defined.
